(** * Retry driver for [terraform apply] (oci.py): model and properties

    A shallow embedding of [src/oci.py]: the variables-file editor
    [update_main_tf], the cleanup [cleanup_resources], the retry driver
    [run_terraform_apply] and the entry point [main].

    Text is modelled by [string]; a character is read as the Unicode code
    point of the same number (0..255).  The outside world (file system,
    results of the child processes) is an explicit [World] that every
    operation threads; Python exceptions are the [Raise] results of the
    monad [M].

    Files are read and written in text mode, as [pathlib] does: a read
    turns CR LF and CR into LF, a write turns LF into the line separator of
    the platform, and either can fail on a file without the permission or
    with bytes that do not decode.  The encoding is taken to encode every
    character (UTF-8).  The files of the logging handlers are not part of
    the modelled file system: a log call is an event of the trace. *)

From Stdlib Require Import ZArith Lia Bool Ascii String List.
From stdpp Require Import gmap strings list.
From Equations Require Import Equations.

Local Open Scope string_scope.
Local Open Scope Z_scope.

(** ** Text primitives *)

Module Text.

Definition dquote : ascii := ascii_of_N 34.
Definition backslash : ascii := ascii_of_N 92.
Definition newline : ascii := ascii_of_N 10.
Definition carriage_return : ascii := ascii_of_N 13.

(** Reading in text mode with [newline=None], as [Path.read_text] does
    (universal newlines): the pair CR LF and the lone CR become LF. *)
Fixpoint universal_newlines (s : string) : string :=
  match s with
  | EmptyString => EmptyString
  | String c t =>
      if Ascii.eqb c carriage_return then
        String newline
          match t with
          | String d t' =>
              if Ascii.eqb d newline then universal_newlines t'
              else universal_newlines t
          | EmptyString => EmptyString
          end
      else String c (universal_newlines t)
  end.

(** Writing in text mode with [newline=None], as [Path.write_text] does:
    every LF becomes [linesep]; a CR is written as it is. *)
Fixpoint translate_newlines (linesep s : string) : string :=
  match s with
  | EmptyString => EmptyString
  | String c t =>
      if Ascii.eqb c newline then linesep +:+ translate_newlines linesep t
      else String c (translate_newlines linesep t)
  end.

(** [str.lower] on the code points below 256: the ASCII capitals and the
    Latin-1 capitals U+00C0..U+00DE (without the sign U+00D7) move up by 32. *)
Definition lower_char (c : ascii) : ascii :=
  let n := N_of_ascii c in
  if ((65 <=? n) && (n <=? 90) ||
      (192 <=? n) && (n <=? 222) && negb (n =? 215))%N
  then ascii_of_N (n + 32) else c.

Fixpoint lower (s : string) : string :=
  match s with
  | EmptyString => EmptyString
  | String c t => String (lower_char c) (lower t)
  end.

(** [s.startswith(p)] *)
Fixpoint startswith (p s : string) : bool :=
  match p, s with
  | EmptyString, _ => true
  | String a p', String b s' => Ascii.eqb a b && startswith p' s'
  | String _ _, EmptyString => false
  end.

(** [needle in hay] for two [str] values. *)
Fixpoint str_in (needle hay : string) : bool :=
  startswith needle hay ||
  match hay with
  | EmptyString => false
  | String _ t => str_in needle t
  end.

(** The class [\s] of a [str] pattern, on the code points below 256. *)
Definition is_space (c : ascii) : bool :=
  let n := N_of_ascii c in
  ((9 <=? n) && (n <=? 13) || (28 <=? n) && (n <=? 32) ||
   (n =? 133) || (n =? 160))%N.

(** The negated class of the pattern: any character but the double quote. *)
Definition not_dquote (c : ascii) : bool := negb (Ascii.eqb c dquote).

Definition quoted (s : string) : string :=
  String dquote (s +:+ String dquote EmptyString).

End Text.

(** ** Exceptions and results *)

(** The exception classes the program can meet.  All of them are subclasses
    of [Exception]. *)
Inductive exn : Type :=
| TimeoutExpired          (* subprocess.TimeoutExpired *)
| ZeroDivisionError
| IndexError
| ValueError
| OverflowError
| OSError                 (* FileNotFoundError, IsADirectoryError, ... *)
| TemplateError           (* re.error, or IndexError on an unknown group name *)
| OtherError (tag : string).

Inductive result (A : Type) : Type :=
| Ok (a : A)
| Raise (e : exn).
Arguments Ok {A} a.
Arguments Raise {A} e.

(** ** The regular expression of the editor

    Only what the pattern of [update_main_tf] uses: literal characters and
    the greedy star of a character class.  [re_match] is the
    backtracking matcher anchored at the start of its input: the star takes
    as many characters as it can and gives them back one by one while the
    rest of the pattern fails.  It returns the text after the match. *)

Module Regex.
Import Text.

Inductive re_item : Type :=
| RLit (c : ascii)
| RStar (cls : ascii -> bool).

Definition regex := list re_item.

Fixpoint re_star (cls : ascii -> bool) (k : string -> option string)
    (s : string) : option string :=
  match s with
  | String c t =>
      if cls c then
        match re_star cls k t with
        | Some r => Some r
        | None => k s
        end
      else k s
  | EmptyString => k s
  end.

Fixpoint re_match (r : regex) (s : string) : option string :=
  match r with
  | [] => Some s
  | RLit c :: r' =>
      match s with
      | String c' t => if Ascii.eqb c c' then re_match r' t else None
      | EmptyString => None
      end
  | RStar cls :: r' => re_star cls (re_match r') s
  end.

Fixpoint lits (s : string) : regex :=
  match s with
  | EmptyString => []
  | String c t => RLit c :: lits t
  end.

(** The pattern: the key, [\s*], the equals sign, [\s*], and a double-quoted
    value without a double quote inside. *)
Definition AD_RE : regex :=
  (lits "availability_domain" ++
   [RStar is_space; RLit "="%char; RStar is_space;
    RLit dquote; RStar not_dquote; RLit dquote])%list.

(** *** Replacement templates

    [re.sub] expands backslash escapes of the replacement string
    ([re._parser.parse_template], CPython 3.12).  The pattern has no group,
    so only group 0 (the whole match) can be referred to. *)

Inductive titem : Type :=
| TChar (c : ascii)
| TGroup0.

Definition in_range (lo hi : N) (c : ascii) : bool :=
  let n := N_of_ascii c in ((lo <=? n) && (n <=? hi))%N.
Definition is_digit : ascii -> bool := in_range 48 57.
Definition is_octdigit : ascii -> bool := in_range 48 55.
Definition is_ascii_letter (c : ascii) : bool :=
  in_range 65 90 c || in_range 97 122 c.
Definition digit_val (c : ascii) : N := (N_of_ascii c - 48)%N.

Fixpoint all_digits (s : string) : bool :=
  match s with
  | EmptyString => true
  | String c t => is_digit c && all_digits t
  end.

Fixpoint all_zero (s : string) : bool :=
  match s with
  | EmptyString => true
  | String c t => Ascii.eqb c "0" && all_zero t
  end.

(** The table [ESCAPES] restricted to what a template can reach. *)
Definition escape_code (c : ascii) : option N :=
  if Ascii.eqb c "a" then Some 7%N
  else if Ascii.eqb c "b" then Some 8%N
  else if Ascii.eqb c "f" then Some 12%N
  else if Ascii.eqb c "n" then Some 10%N
  else if Ascii.eqb c "r" then Some 13%N
  else if Ascii.eqb c "t" then Some 9%N
  else if Ascii.eqb c "v" then Some 11%N
  else if Ascii.eqb c backslash then Some 92%N
  else None.

Definition tcons (i : titem) (r : result (list titem)) : result (list titem) :=
  match r with
  | Ok l => Ok (i :: l)
  | Raise e => Raise e
  end.

(** [name] is [Some nm] while the name of a group reference is being read
    (after the opening angle bracket), [None] otherwise. *)
Fixpoint parse_template (name : option string) (s : string)
    : result (list titem) :=
  match name with
  | Some nm =>
      match s with
      | EmptyString => Raise TemplateError
      | String c t =>
          if Ascii.eqb c ">" then
            match nm with
            | EmptyString => Raise TemplateError
            | _ =>
                if all_digits nm && all_zero nm
                then tcons TGroup0 (parse_template None t)
                else Raise TemplateError
            end
          else parse_template (Some (nm +:+ String c EmptyString)) t
      end
  | None =>
      match s with
      | EmptyString => Ok []
      | String c t =>
          if negb (Ascii.eqb c backslash) then tcons (TChar c) (parse_template None t)
          else
            match t with
            | EmptyString => Raise TemplateError
            | String e t1 =>
                if Ascii.eqb e "g" then
                  match t1 with
                  | String b t2 =>
                      if Ascii.eqb b "<" then parse_template (Some EmptyString) t2
                      else Raise TemplateError
                  | EmptyString => Raise TemplateError
                  end
                else if Ascii.eqb e "0" then
                  match t1 with
                  | String d1 t2 =>
                      if is_octdigit d1 then
                        match t2 with
                        | String d2 t3 =>
                            if is_octdigit d2 then
                              tcons (TChar (ascii_of_N
                                       (N.land (digit_val d1 * 8 + digit_val d2) 255)))
                                    (parse_template None t3)
                            else tcons (TChar (ascii_of_N (digit_val d1)))
                                       (parse_template None t2)
                        | EmptyString =>
                            tcons (TChar (ascii_of_N (digit_val d1)))
                                  (parse_template None t2)
                        end
                      else tcons (TChar zero) (parse_template None t1)
                  | EmptyString => tcons (TChar zero) (parse_template None t1)
                  end
                else if is_digit e then
                  match t1 with
                  | String d1 (String d2 t3) =>
                      if is_octdigit e && is_octdigit d1 && is_octdigit d2 then
                        let v := (digit_val e * 64 + digit_val d1 * 8 + digit_val d2)%N in
                        if (255 <? v)%N then Raise TemplateError
                        else tcons (TChar (ascii_of_N v)) (parse_template None t3)
                      else Raise TemplateError
                  | _ => Raise TemplateError
                  end
                else
                  match escape_code e with
                  | Some n => tcons (TChar (ascii_of_N n)) (parse_template None t1)
                  | None =>
                      if is_ascii_letter e then Raise TemplateError
                      else tcons (TChar c) (tcons (TChar e) (parse_template None t1))
                  end
            end
      end
  end.

Fixpoint expand_template (tpl : list titem) (matched : string) : string :=
  match tpl with
  | [] => EmptyString
  | TChar c :: tpl' => String c (expand_template tpl' matched)
  | TGroup0 :: tpl' => matched +:+ expand_template tpl' matched
  end.

(** *** Substitution

    The scan of [re.sub] for [AD_RE]: [skip] counts the characters of the
    last match that are still to be passed.  A match of [AD_RE] is never
    empty, so the rule of [re.sub] for empty matches does not arise. *)
Fixpoint sub_scan (repl : string -> string) (skip : nat) (s : string) : string :=
  match s with
  | EmptyString => EmptyString
  | String c t =>
      match skip with
      | S k => sub_scan repl k t
      | O =>
          match re_match AD_RE s with
          | Some rest =>
              let n := (String.length s - String.length rest)%nat in
              repl (substring 0 n s) +:+ sub_scan repl (n - 1) t
          | None => String c (sub_scan repl 0 t)
          end
      end
  end.

(** [re.sub(AD_RE, template, content)] *)
Definition re_sub (template content : string) : result string :=
  match parse_template None template with
  | Ok tpl => Ok (sub_scan (expand_template tpl) 0 content)
  | Raise e => Raise e
  end.

End Regex.

(** ** The world and the monad of effects *)

Inductive Level : Type := DEBUG | INFO | WARNING | ERROR.

Definition level_no (l : Level) : Z :=
  match l with DEBUG => 10 | INFO => 20 | WARNING => 30 | ERROR => 40 end.

(** A [logging.Logger]: only its level matters here. *)
Record Logger : Type := { logger_level : Z }.

Definition isEnabledFor (lg : Logger) (l : Level) : bool :=
  logger_level lg <=? level_no l.

(** Arguments of a log call. *)
Inductive Arg : Type :=
| AStr (s : string)
| AInt (n : Z)
| ABool (b : bool)
| AList (l : list string)
| ANone.

(** What [subprocess.run(..., check=False, capture_output=True, text=True)]
    does: it returns a [CompletedProcess] or raises. *)
Record CompletedProcess : Type :=
  { returncode : Z; stdout : string; stderr : string }.

Inductive ProcOutcome : Type :=
| Completed (r : CompletedProcess)
| Raises (e : exn).

(** What a run does to the outside, in order.  A log call is recorded
    whatever the level of the logger is. *)
Inductive Event : Type :=
| ELog (lvl : Level) (fmt : string) (args : list Arg)
| ELogException (fmt : string) (args : list Arg)
| ERun (cmd : list string) (cwd : string) (time_limit : Z) (out : ProcOutcome)
| ESleep (secs : Z).

(** What a path names.  The content of a regular file is the characters it
    stores, after decoding and before any translation of line endings.
    [File c] is a regular file that the program may read and write.
    [Restricted c readable writable] is a regular file with less: without
    [readable] a read raises [PermissionError] (an [OSError]), without
    [writable] so does a write, and the content [None] stands for bytes that
    do not decode, on which a read raises [UnicodeDecodeError] (a
    [ValueError]). *)
Inductive fsnode : Type :=
| Dir
| File (content : string)
| Restricted (content : option string) (readable writable : bool).

(** [os.linesep]: LF on POSIX, CR LF on Windows. *)
Inductive Platform : Type := Posix | Windows.

Definition linesep (pf : Platform) : string :=
  match pf with
  | Posix => String Text.newline EmptyString
  | Windows => String Text.carriage_return (String Text.newline EmptyString)
  end.

(** [fs] holds the paths of the program other than those of its logger: what
    the handlers of [setup_logging] do with a log line (the console, the
    rotated file under [logs/]) is not part of [fs]; the log calls
    themselves are the [ELog] events of the [trace].  [oracle n] is what the
    [n]-th child process of the run does; [calls] counts the children
    started so far.  The children do not touch the two files the program
    edits. *)
Record World : Type :=
  { fs : gmap string fsnode;
    trace : list Event;
    oracle : nat -> ProcOutcome;
    calls : nat;
    platform : Platform }.

Definition M (A : Type) : Type := World -> result A * World.

Definition ret {A} (a : A) : M A := fun w => (Ok a, w).
Definition raise {A} (e : exn) : M A := fun w => (Raise e, w).

Definition bind {A B} (m : M A) (k : A -> M B) : M B :=
  fun w =>
    match m w with
    | (Ok a, w') => k a w'
    | (Raise e, w') => (Raise e, w')
    end.

Definition lift {A} (r : result A) : M A := fun w => (r, w).

(** [try: body / except Exception as e: handler e] *)
Definition try_except {A} (body : M A) (handler : exn -> M A) : M A :=
  fun w =>
    match body w with
    | (Ok a, w') => (Ok a, w')
    | (Raise e, w') => handler e w'
    end.

Declare Scope py_scope.
Delimit Scope py_scope with py.
Notation "'let!' x ':=' m 'in' k" := (bind m (fun x => k))
  (at level 10, x name, m at level 100, k at level 200) : py_scope.
Notation "m '>>' k" := (bind m (fun _ => k))
  (at level 90, right associativity) : py_scope.
Local Open Scope py_scope.

(** The world after one more event. *)
Definition add_event (e : Event) (w : World) : World :=
  {| fs := fs w; trace := trace w ++ [e]; oracle := oracle w; calls := calls w;
     platform := platform w |}.

Definition emit (e : Event) : M unit :=
  fun w => (Ok tt, add_event e w).

(** [logger.log(lvl, fmt, *args)]: the call is recorded; the files of the
    handlers are outside [fs]. *)
Definition log (lvl : Level) (fmt : string) (args : list Arg) : M unit :=
  emit (ELog lvl fmt args).

(** [logger.exception]: level ERROR, with the traceback. *)
Definition log_exception (fmt : string) (args : list Arg) : M unit :=
  emit (ELogException fmt args).

(** The world after a child process was started: the event records what the
    process did. *)
Definition started (cmd : list string) (cwd : string) (time_limit : Z)
    (w : World) : World :=
  {| fs := fs w;
     trace := trace w ++ [ERun cmd cwd time_limit (oracle w (calls w))];
     oracle := oracle w; calls := S (calls w); platform := platform w |}.

(** [subprocess.run(cmd, check=False, cwd=cwd, capture_output=True,
    text=True, timeout=time_limit)] *)
Definition subprocess_run (cmd : list string) (cwd : string) (time_limit : Z)
    : M CompletedProcess :=
  fun w =>
    match oracle w (calls w) with
    | Completed r => (Ok r, started cmd cwd time_limit w)
    | Raises e => (Raise e, started cmd cwd time_limit w)
    end.

(** The largest number of seconds whose nanoseconds fit the 64-bit clock of
    CPython. *)
Definition SLEEP_MAX : Z := 9223372036.

Definition sleep_accepts (secs : Z) : bool :=
  (0 <=? secs) && (secs <=? SLEEP_MAX).

(** [time.sleep(secs)] for an [int]: a negative length is a [ValueError], a
    length out of the range of the clock an [OverflowError]. *)
Definition time_sleep (secs : Z) : M unit :=
  if (secs <? - SLEEP_MAX) || (SLEEP_MAX <? secs) then raise OverflowError
  else if secs <? 0 then raise ValueError
  else emit (ESleep secs).

(** [pathlib]: [d / name] and [p.exists()]. *)
Definition path_join (d name : string) : string := d +:+ "/" +:+ name.

Definition path_exists (p : string) : M bool :=
  fun w => (Ok (bool_decide (is_Some (fs w !! p))), w).

(** What a read in text mode gives for a node: the text with its line
    endings translated, or the exception ([IsADirectoryError] and
    [PermissionError] are [OSError], [UnicodeDecodeError] is a
    [ValueError]). *)
Definition node_text (n : fsnode) : result string :=
  match n with
  | Dir => Raise OSError
  | File c => Ok (Text.universal_newlines c)
  | Restricted _ false _ => Raise OSError
  | Restricted None true _ => Raise ValueError
  | Restricted (Some c) true _ => Ok (Text.universal_newlines c)
  end.

(** [p.read_text()]; a missing path raises [FileNotFoundError], an
    [OSError]. *)
Definition read_text (p : string) : M string :=
  fun w =>
    match fs w !! p with
    | Some n => (node_text n, w)
    | None => (Raise OSError, w)
    end.

(** The world after a path was given a new node. *)
Definition put_node (file : string) (node : fsnode) (w : World) : World :=
  {| fs := <[file := node]> (fs w); trace := trace w;
     oracle := oracle w; calls := calls w; platform := platform w |}.

(** The world after a file was written: [content] is what the file stores. *)
Definition put_file (file content : string) (w : World) : World :=
  put_node file (File content) w.

(** What a write in text mode stores for [content]. *)
Definition to_disk (w : World) (content : string) : string :=
  Text.translate_newlines (linesep (platform w)) content.

(** [p.write_text(content)]: the file is truncated, or created, and
    [content] is stored with its line breaks translated; the permissions of
    an existing file stay. *)
Definition write_text (p content : string) : M unit :=
  fun w =>
    match fs w !! p with
    | Some Dir => (Raise OSError, w)
    | Some (Restricted _ readable writable) =>
        if writable
        then (Ok tt, put_node p (Restricted (Some (to_disk w content)) readable true) w)
        else (Raise OSError, w)
    | _ => (Ok tt, put_file p (to_disk w content) w)
    end.

(** ** The program *)

Import Text Regex.

(** The formats that end in a line break and [%s]. *)
Definition with_text (label : string) : string :=
  label +:+ String newline "%s".

(** *** [cleanup_resources] *)

Definition destroy_cmd (auto_approve : bool) : list string :=
  (["terraform"; "destroy"] ++
   (if auto_approve then ["-auto-approve"] else []))%list.

Definition cleanup_resources (config_dir : string) (auto_approve : bool)
    : M unit :=
  log INFO "Running terraform destroy to clean up all resources..." [] >>
  try_except
    (let! result := subprocess_run (destroy_cmd auto_approve) config_dir 1800 in
     if returncode result =? 0 then
       log INFO "Successfully cleaned up all resources" [] >>
       log INFO (with_text "Destroy output:") [AStr (stdout result)]
     else
       log ERROR "Failed to clean up resources (exit code: %d)"
           [AInt (returncode result)] >>
       log ERROR (with_text "Destroy error output:") [AStr (stderr result)])
    (fun e =>
       match e with
       | TimeoutExpired => log_exception "Terraform destroy timed out" []
       | _ => log_exception "Unexpected error during resource cleanup:" []
       end).

(** *** [update_main_tf] *)

(** The replacement [f'availability_domain = "{availability_domain}"']. *)
Definition ad_assignment (availability_domain : string) : string :=
  "availability_domain = " +:+ quoted availability_domain.

(** The edit of one file: [true] when the file was written. *)
Definition rewrite_file (file availability_domain found_msg missing_msg : string)
    : M bool :=
  let! content := read_text file in
  let! updated_content := lift (re_sub (ad_assignment availability_domain) content) in
  if negb (String.eqb updated_content content) then
    write_text file updated_content >>
    log INFO found_msg [AStr availability_domain] >>
    ret true
  else
    log WARNING missing_msg [] >>
    ret false.

Definition update_main_tf (config_dir availability_domain : string) : M unit :=
  let tfvars_file := path_join config_dir "terraform.tfvars" in
  let! tfvars_exists := path_exists tfvars_file in
  let! returned :=
    (if tfvars_exists then
       rewrite_file tfvars_file availability_domain
         "Updated terraform.tfvars with availability domain: %s"
         "Could not find availability_domain line in terraform.tfvars to update"
     else ret false) in
  if returned then ret tt
  else
    let main_tf_file := path_join config_dir "main.tf" in
    let! main_tf_exists := path_exists main_tf_file in
    if negb main_tf_exists then
      log WARNING "main.tf not found, skipping AD update" []
    else
      rewrite_file main_tf_file availability_domain
        "Updated main.tf with availability domain: %s"
        "Could not find availability_domain line in main.tf to update" >>
      ret tt.

(** *** [run_terraform_apply] *)

Record Params : Type :=
  { config_dir : string;
    max_attempts : Z;
    retry_delay : Z;
    auto_approve : bool;
    availability_domains : list string;
    logger : Logger;
    timeout : Z;
    no_cleanup : bool;
    plan_only : bool }.

Definition operation (p : Params) : string :=
  if plan_only p then "plan" else "apply".

Definition cmd (p : Params) : list string :=
  (["terraform"; operation p] ++
   (if auto_approve p && negb (plan_only p) then ["-auto-approve"] else []))%list.

(** [availability_domains[(attempt - 1) % len(availability_domains)]]: the
    remainder raises on a zero divisor, the subscript on an index out of
    range (a negative index counts from the end). *)
Definition region_index (zones : list string) (attempt : Z) : result Z :=
  let n := Z.of_nat (List.length zones) in
  if n =? 0 then Raise ZeroDivisionError else Ok ((attempt - 1) mod n).

Definition subscript (zones : list string) (i : Z) : result string :=
  let n := Z.of_nat (List.length zones) in
  let j := if i <? 0 then i + n else i in
  if (j <? 0) || (n <=? j) then Raise IndexError
  else match zones !! Z.to_nat j with
       | Some z => Ok z
       | None => Raise IndexError
       end.

Definition select_zone (zones : list string) (attempt : Z) : result string :=
  match region_index zones attempt with
  | Ok i => subscript zones i
  | Raise e => Raise e
  end.

(** The markers of a recoverable failure, searched in the lowered text. *)
Definition recoverable (stderr_text : string) : bool :=
  let error_output := lower stderr_text in
  str_in "out of host capacity" error_output ||
  str_in "internalerror" error_output.

(** How an iteration of the [while] loop ends. *)
Inductive Control : Type :=
| CReturn (b : bool)      (* return b *)
| CContinue               (* attempt += 1; continue *)
| CElse.                  (* end of the try body: the else clause runs *)

Definition when (b : bool) (m : M unit) : M unit := if b then m else ret tt.

(** The body of the [try] statement. *)
Definition try_body (p : Params) (attempt : Z) : M Control :=
  let! result := subprocess_run (cmd p) (config_dir p) (timeout p) in
  if returncode result =? 0 then
    log INFO "Terraform %s succeeded!" [AStr (operation p)] >>
    when (isEnabledFor (logger p) DEBUG)
         (log DEBUG (with_text "Output:") [AStr (stdout result)]) >>
    ret (CReturn true)
  else
    log WARNING "Terraform %s failed (exit code: %d)"
        [AStr (operation p); AInt (returncode result)] >>
    when (isEnabledFor (logger p) DEBUG)
         (log DEBUG (with_text "Error output:") [AStr (stderr result)]) >>
    if plan_only p then ret (CReturn false)
    else
      when (negb (no_cleanup p))
           (cleanup_resources (config_dir p) (auto_approve p)) >>
      if recoverable (stderr result) then
        if attempt <? max_attempts p then
          log INFO "Detected recoverable error (host capacity). Retrying in %d seconds..."
              [AInt (retry_delay p)] >>
          time_sleep (retry_delay p) >>
          ret CContinue
        else
          log ERROR "Detected recoverable error but no more attempts available." [] >>
          ret (CReturn false)
      else
        log ERROR "Non-recoverable error detected. Stopping retries." [] >>
        ret CElse.

(** The two [except] clauses. *)
Definition handlers (p : Params) (e : exn) : M Control :=
  match e with
  | TimeoutExpired =>
      log WARNING "Terraform apply timed out. Retrying..." [] >>
      ret CContinue
  | _ =>
      log_exception "Unexpected error running terraform %s:" [AStr (operation p)] >>
      when (negb (plan_only p) && negb (no_cleanup p))
           (log INFO "Cleaning up resources due to unexpected error..." [] >>
            cleanup_resources (config_dir p) (auto_approve p)) >>
      ret (CReturn false)
  end.

(** What an iteration does with the zone it selected, before the [try]
    statement. *)
Definition use_zone (p : Params) (attempt : Z) (current_ad : string) : M unit :=
  log INFO "Attempt %d/%d: Using AD %s"
      [AInt attempt; AInt (max_attempts p); AStr current_ad] >>
  update_main_tf (config_dir p) current_ad >>
  log INFO "Running %s" [AList (cmd p)].

(** What precedes the [try] statement in an iteration. *)
Definition prelude (p : Params) (attempt : Z) : M string :=
  let! current_ad := lift (select_zone (availability_domains p) attempt) in
  use_zone p attempt current_ad >>
  ret current_ad.

(** One iteration of the loop; the [else] clause returns [False]. *)
Definition iteration (p : Params) (attempt : Z) : M Control :=
  prelude p attempt >>
  let! c := try_except (try_body p attempt) (handlers p) in
  match c with
  | CElse => ret (CReturn false)
  | _ => ret c
  end.

(** After the loop. *)
Definition attempts_exceeded (p : Params) : M bool :=
  log ERROR "Maximum attempts (%d) exceeded." [AInt (max_attempts p)] >>
  when (negb (plan_only p) && negb (no_cleanup p))
       (log INFO "Cleaning up resources..." [] >>
        cleanup_resources (config_dir p) (auto_approve p)) >>
  ret false.

(** [while attempt <= max_attempts: ...]; both [continue] statements come
    after [attempt += 1]. *)
Equations? loop (p : Params) (attempt : Z) (w : World) : result bool * World
  by wf (Z.to_nat (max_attempts p + 1 - attempt)) lt :=
loop p attempt w with Z_le_gt_dec attempt (max_attempts p) := {
  | right _ => attempts_exceeded p w
  | left _ with iteration p attempt w := {
    | (Ok CContinue, w') => loop p (attempt + 1) w'
    | (Ok (CReturn b), w') => (Ok b, w')
    | (Ok CElse, w') => (Ok false, w')
    | (Raise e, w') => (Raise e, w') } }.
Proof. lia. Qed.

Definition run_terraform_apply (p : Params) : M bool :=
  let! dir_exists := path_exists (config_dir p) in
  if negb dir_exists then
    log ERROR "Terraform config directory does not exist: %s" [AStr (config_dir p)] >>
    ret false
  else loop p 1.

(** *** [check_availability_domain_in_tfvars] and [main] *)

(** [re.search] with the pattern of the editor and a group around the value:
    the value of the first match. *)
Fixpoint drop_to_dquote (s : string) : string :=
  match s with
  | EmptyString => EmptyString
  | String c t => if Ascii.eqb c dquote then t else drop_to_dquote t
  end.

Definition group1 (matched : string) : string :=
  let v := drop_to_dquote matched in
  substring 0 (String.length v - 1) v.

Fixpoint re_search (s : string) : option string :=
  match re_match AD_RE s with
  | Some rest =>
      Some (group1 (substring 0 (String.length s - String.length rest) s))
  | None =>
      match s with
      | EmptyString => None
      | String _ t => re_search t
      end
  end.

(** [v.strip() != ''] *)
Fixpoint has_non_space (s : string) : bool :=
  match s with
  | EmptyString => false
  | String c t => negb (is_space c) || has_non_space t
  end.

Definition check_availability_domain_in_tfvars (config_dir : string) : M bool :=
  let tfvars_file := path_join config_dir "terraform.tfvars" in
  let! tfvars_exists := path_exists tfvars_file in
  if negb tfvars_exists then ret false
  else
    let! content := read_text tfvars_file in
    match re_search content with
    | Some v => ret (has_non_space v)
    | None => ret false
    end.

(** The namespace [parser.parse_args()] returns; [config_dir] stands for the
    resolved path. *)
Record Args : Type :=
  { arg_config_dir : string;
    arg_max_attempts : Z;
    arg_retry_delay : Z;
    arg_no_auto_approve : bool;
    arg_log_file : string;
    arg_availability_domains : option (list string);
    arg_timeout : Z;
    arg_no_cleanup : bool;
    arg_quiet : bool;
    arg_verbose : bool;
    arg_plan_only : bool }.

(** [setup_logging]: the logger with its level.  The directory [logs/] and
    the two handlers (the console, and the rotating file whose records pass
    through [ColorFilterHandler]) write outside [fs]; what the file handler
    does to a record is [filter_record] below. *)
Definition setup_logging (log_level : Level) : Logger :=
  {| logger_level := level_no log_level |}.

(** How [main] ends: [SystemExit code], raised by [sys.exit] or by
    [parser.error] (code 2). *)
Inductive Exit : Type := SystemExit (code : Z).

(** The zone list of the run, or the exit of the program. *)
Definition resolve_domains (a : Args) : M (Exit + list string) :=
  let! ad_in_tfvars := check_availability_domain_in_tfvars (arg_config_dir a) in
  match arg_availability_domains a with
  | None =>
      if negb ad_in_tfvars then
        log ERROR "No --availability-domains provided and availability_domain not set in terraform.tfvars" [] >>
        log ERROR "Please either provide --availability-domains or set availability_domain in terraform.tfvars" [] >>
        ret (inl (SystemExit 1))
      else
        log INFO "No --availability-domains provided, using existing availability_domain from terraform.tfvars" [] >>
        let! content := read_text (path_join (arg_config_dir a) "terraform.tfvars") in
        match re_search content with
        | Some current_ad =>
            log INFO "Using availability domain from terraform.tfvars: %s" [AStr current_ad] >>
            ret (inr [current_ad])
        | None =>
            log ERROR "Could not read availability_domain from terraform.tfvars" [] >>
            ret (inl (SystemExit 1))
        end
  | Some zones =>
      when ad_in_tfvars
           (log INFO "availability_domain is set in terraform.tfvars, but will be overridden by --availability-domains" []) >>
      ret (inr zones)
  end.

Definition params_of (a : Args) (lg : Logger) (zones : list string) : Params :=
  {| config_dir := arg_config_dir a;
     max_attempts := arg_max_attempts a;
     retry_delay := arg_retry_delay a;
     auto_approve := negb (arg_no_auto_approve a);
     availability_domains := zones;
     logger := lg;
     timeout := arg_timeout a;
     no_cleanup := arg_no_cleanup a;
     plan_only := arg_plan_only a |}.

Definition opt_list (o : option (list string)) : Arg :=
  match o with Some l => AList l | None => ANone end.

(** The lines [main] logs before it looks at the configuration. *)
Definition announce (a : Args) : M unit :=
  log INFO "Starting terraform apply retry script with automatic cleanup" [] >>
  log INFO "Log file: %s" [AStr (arg_log_file a)] >>
  log INFO "Config directory: %s" [AStr (arg_config_dir a)] >>
  log INFO "Max attempts: %d" [AInt (arg_max_attempts a)] >>
  log INFO "Retry delay: %d seconds" [AInt (arg_retry_delay a)] >>
  log INFO "Auto approve: %s" [ABool (negb (arg_no_auto_approve a))] >>
  log INFO "Availability domains: %s" [opt_list (arg_availability_domains a)].

Definition log_level_of (a : Args) : Level :=
  if arg_quiet a then ERROR else if arg_verbose a then DEBUG else INFO.

Definition main (a : Args) : M Exit :=
  if arg_quiet a && arg_verbose a then
    (* parser.error('--quiet and --verbose cannot be used together') *)
    ret (SystemExit 2)
  else
    let lg := setup_logging (log_level_of a) in
    announce a >>
    let! r := resolve_domains a in
    match r with
    | inl e => ret e
    | inr zones =>
        let! success := run_terraform_apply (params_of a lg zones) in
        if success then
          log INFO "Script completed successfully!" [] >>
          ret (SystemExit 0)
        else
          log ERROR "Script failed! All resources have been cleaned up." [] >>
          ret (SystemExit 1)
    end.

(** The exit status of the process: the code of [SystemExit]; an exception
    that leaves [main] ends the interpreter with status 1. *)
Definition exit_status (r : result Exit) : Z :=
  match r with
  | Ok (SystemExit code) => code
  | Raise _ => 1
  end.

(** ** Evaluation on concrete inputs *)

Definition line (value : string) : string := ad_assignment value.

Definition world0 (files : gmap string fsnode) (o : nat -> ProcOutcome) : World :=
  {| fs := files; trace := []; oracle := o; calls := 0; platform := Posix |}.

Definition failed (code : Z) (err : string) : ProcOutcome :=
  Completed {| returncode := code; stdout := ""; stderr := err |}.

Definition params0 : Params :=
  {| config_dir := "/cfg"; max_attempts := 3; retry_delay := 30;
     auto_approve := true; availability_domains := ["AD-1"; "AD-2"; "AD-3"];
     logger := {| logger_level := 20 |}; timeout := 1800;
     no_cleanup := false; plan_only := false |}.

Definition files0 : gmap string fsnode :=
  <["/cfg" := Dir]> (<["/cfg/terraform.tfvars" := File (line "AD-1")]> ∅).


Definition two_lines : string :=
  ("# " +:+ line "AD-3") +:+ String newline (line "AD-1").

Definition files_two_lines : gmap string fsnode :=
  <["/cfg" := Dir]> (<["/cfg/terraform.tfvars" := File two_lines]> ∅).

Definition files_commented : gmap string fsnode :=
  <["/cfg" := Dir]>
    (<["/cfg/terraform.tfvars" :=
       File (("x = 1" +:+ String newline EmptyString)
             +:+ line "AD-1" +:+ String newline "y = 2")]> ∅).

Definition no_process : nat -> ProcOutcome := fun _ => Raises OSError.

Definition files_already_set : gmap string fsnode :=
  <["/cfg" := Dir]>
    (<["/cfg/terraform.tfvars" := File (line "AD-2")]>
       (<["/cfg/main.tf" := File (line "AD-1")]> ∅)).

Definition tfvars_of (dir : string) : string := path_join dir "terraform.tfvars".
Definition main_tf_of (dir : string) : string := path_join dir "main.tf".

(** [no_match_before pre rest]: in the text [pre +:+ rest] no match of the
    pattern begins inside [pre]. *)
Fixpoint no_match_before (pre rest : string) : bool :=
  match pre with
  | EmptyString => true
  | String _ t =>
      match re_match AD_RE (pre +:+ rest) with
      | None => no_match_before t rest
      | Some _ => false
      end
  end.

(** What [cleanup_resources] logs after the destroy invocation. *)
Definition cleanup_logs (out : ProcOutcome) : list Event :=
  match out with
  | Completed r =>
      if returncode r =? 0 then
        [ELog INFO "Successfully cleaned up all resources" [];
         ELog INFO (with_text "Destroy output:") [AStr (stdout r)]]
      else
        [ELog ERROR "Failed to clean up resources (exit code: %d)" [AInt (returncode r)];
         ELog ERROR (with_text "Destroy error output:") [AStr (stderr r)]]
  | Raises TimeoutExpired => [ELogException "Terraform destroy timed out" []]
  | Raises _ => [ELogException "Unexpected error during resource cleanup:" []]
  end.

Definition add_events (evs : list Event) (w : World) : World :=
  {| fs := fs w; trace := trace w ++ evs; oracle := oracle w; calls := calls w;
     platform := platform w |}.

(** The world after a cleanup. *)
Definition cleaned (dir : string) (aa : bool) (w : World) : World :=
  let w1 := add_event (ELog INFO "Running terraform destroy to clean up all resources..." []) w in
  add_events (cleanup_logs (oracle w (calls w))) (started (destroy_cmd aa) dir 1800 w1).

(** The part of an iteration that follows the prelude. *)
Definition attempt (p : Params) (N : Z) : M Control :=
  let! c := try_except (try_body p N) (handlers p) in
  match c with
  | CElse => ret (CReturn false)
  | _ => ret c
  end.

(** The world once the failure of the invocation was reported. *)
Definition failure_reported (p : Params) (r : CompletedProcess) (w1 : World) : World :=
  let w2 := started (cmd p) (config_dir p) (timeout p) w1 in
  let w3 := add_event (ELog WARNING "Terraform %s failed (exit code: %d)"
                         [AStr (operation p); AInt (returncode r)]) w2 in
  if isEnabledFor (logger p) DEBUG
  then add_event (ELog DEBUG (with_text "Error output:") [AStr (stderr r)]) w3
  else w3.

(** What follows the report of a failure in the [try] body. *)
Definition after_report (p : Params) (N : Z) (r : CompletedProcess) : M Control :=
  if plan_only p then ret (CReturn false)
  else
    when (negb (no_cleanup p))
         (cleanup_resources (config_dir p) (auto_approve p)) >>
    if recoverable (stderr r) then
      if N <? max_attempts p then
        log INFO "Detected recoverable error (host capacity). Retrying in %d seconds..."
            [AInt (retry_delay p)] >>
        time_sleep (retry_delay p) >>
        ret CContinue
      else
        log ERROR "Detected recoverable error but no more attempts available." [] >>
        ret (CReturn false)
    else
      log ERROR "Non-recoverable error detected. Stopping retries." [] >>
      ret CElse.

(** The world in which the cleanup after a failure has run, or was skipped. *)
Definition cleanup_done (p : Params) (w : World) : World :=
  if no_cleanup p then w else cleaned (config_dir p) (auto_approve p) w.

Definition w_timeout : World := world0 files0 (fun _ => Raises TimeoutExpired).

Definition w_capacity : World :=
  world0 files0 (fun _ => failed 1 "Error: Out of host capacity").

Definition params_plan : Params :=
  {| config_dir := "/cfg"; max_attempts := 3; retry_delay := 30;
     auto_approve := true; availability_domains := ["AD-1"; "AD-2"; "AD-3"];
     logger := {| logger_level := 20 |}; timeout := 1800;
     no_cleanup := false; plan_only := true |}.

Definition params_negative_delay : Params :=
  {| config_dir := "/cfg"; max_attempts := 3; retry_delay := -1;
     auto_approve := true; availability_domains := ["AD-1"; "AD-2"; "AD-3"];
     logger := {| logger_level := 20 |}; timeout := 1800;
     no_cleanup := false; plan_only := false |}.

(** The events that start [terraform destroy]. *)
Definition is_destroy (e : Event) : bool :=
  match e with
  | ERun (_ :: verb :: _) _ _ _ => String.eqb verb "destroy"
  | _ => false
  end.

Definition params_no_cleanup : Params :=
  {| config_dir := "/cfg"; max_attempts := 3; retry_delay := 30;
     auto_approve := true; availability_domains := ["AD-1"; "AD-2"; "AD-3"];
     logger := {| logger_level := 20 |}; timeout := 1800;
     no_cleanup := true; plan_only := false |}.

Definition args0 : Args :=
  {| arg_config_dir := "/cfg"; arg_max_attempts := 3; arg_retry_delay := 30;
     arg_no_auto_approve := false; arg_log_file := "terraform_retry.log";
     arg_availability_domains := Some ["AD-1"; "AD-2"; "AD-3"];
     arg_timeout := 1800; arg_no_cleanup := false;
     arg_quiet := false; arg_verbose := false; arg_plan_only := false |}.

Definition args_quiet_verbose : Args :=
  {| arg_config_dir := "/cfg"; arg_max_attempts := 3; arg_retry_delay := 30;
     arg_no_auto_approve := false; arg_log_file := "terraform_retry.log";
     arg_availability_domains := Some ["AD-1"; "AD-2"; "AD-3"];
     arg_timeout := 1800; arg_no_cleanup := false;
     arg_quiet := true; arg_verbose := true; arg_plan_only := false |}.

Definition succeeded : ProcOutcome :=
  Completed {| returncode := 0; stdout := "Apply complete!"; stderr := "" |}.

Definition w_success : World := world0 files0 (fun _ => succeeded).

(** The world once the success of the invocation was reported. *)
Definition success_reported (p : Params) (r : CompletedProcess) (w1 : World) : World :=
  let w2 := started (cmd p) (config_dir p) (timeout p) w1 in
  let w3 := add_event (ELog INFO "Terraform %s succeeded!" [AStr (operation p)]) w2 in
  if isEnabledFor (logger p) DEBUG
  then add_event (ELog DEBUG (with_text "Output:") [AStr (stdout r)]) w3
  else w3.

(** Whether the driver cleans up outside of the [try] body. *)
Definition cleans_up (p : Params) : bool := negb (plan_only p) && negb (no_cleanup p).

(** The world after the handler of an unexpected exception. *)
Definition error_handled (p : Params) (w : World) : World :=
  let w1 := add_event (ELogException "Unexpected error running terraform %s:"
                         [AStr (operation p)]) w in
  if cleans_up p
  then cleaned (config_dir p) (auto_approve p)
         (add_event (ELog INFO "Cleaning up resources due to unexpected error..." []) w1)
  else w1.

(** The world after the code that follows the loop. *)
Definition exhausted (p : Params) (w : World) : World :=
  let w1 := add_event (ELog ERROR "Maximum attempts (%d) exceeded."
                         [AInt (max_attempts p)]) w in
  if cleans_up p
  then cleaned (config_dir p) (auto_approve p)
         (add_event (ELog INFO "Cleaning up resources..." []) w1)
  else w1.

Definition w_broken : World := world0 files0 (fun _ => Raises OSError).

Definition params_no_attempts : Params :=
  {| config_dir := "/cfg"; max_attempts := 0; retry_delay := 30;
     auto_approve := true; availability_domains := ["AD-1"; "AD-2"; "AD-3"];
     logger := {| logger_level := 20 |}; timeout := 1800;
     no_cleanup := false; plan_only := false |}.

(** [steps R m]: [R] relates every world to the world [m] leaves. *)
Definition steps {A} (R : World -> World -> Prop) (m : M A) : Prop :=
  forall w, R w (snd (m w)).





(** The events that start [terraform apply] or [terraform plan]. *)
Definition is_apply (e : Event) : bool :=
  match e with
  | ERun _ _ _ _ => negb (is_destroy e)
  | _ => false
  end.

(** The apply or plan invocations that exited with code 0. *)
Definition is_success (e : Event) : bool :=
  match e with
  | ERun _ _ _ (Completed r) => negb (is_destroy e) && (returncode r =? 0)
  | _ => false
  end.

Definition is_log (e : Event) : bool :=
  match e with
  | ELog _ _ _ => true
  | _ => false
  end.

(** Only the destroy command, with its fixed time limit. *)
Definition destroy_only (p : Params) (c : list string) (t : Z) : Prop :=
  c = destroy_cmd (auto_approve p) /\ t = 1800.

(** No child process at all. *)
Definition no_process_started (c : list string) (t : Z) : Prop := False.

(** How many apply or plan invocations a list of events holds. *)
Definition count_applies (evs : list Event) : nat :=
  List.length (List.filter is_apply evs).

Definition params_backslash : Params :=
  {| config_dir := "/cfg"; max_attempts := 3; retry_delay := 30;
     auto_approve := true; availability_domains := ["tenancy\AD-1"; "AD-2"];
     logger := {| logger_level := 20 |}; timeout := 1800;
     no_cleanup := false; plan_only := false |}.

(** *** [ColorFilterHandler.emit]

    The pattern of the colour codes: ESC, an opening square bracket, digits
    and semicolons, the letter m. *)
Definition esc : ascii := ascii_of_N 27.

Definition sgr_char (c : ascii) : bool := is_digit c || Ascii.eqb c ";".

Definition ANSI_RE : regex :=
  [RLit esc; RLit "["%char; RStar sgr_char; RLit "m"%char].

(** The scan of [re.sub] for a pattern [r] that cannot match the empty
    text. *)
Fixpoint sub_scan_re (r : regex) (repl : string -> string) (skip : nat)
    (s : string) : string :=
  match s with
  | EmptyString => EmptyString
  | String c t =>
      match skip with
      | S k => sub_scan_re r repl k t
      | O =>
          match re_match r s with
          | Some rest =>
              let n := (String.length s - String.length rest)%nat in
              repl (substring 0 n s) +:+ sub_scan_re r repl (n - 1) t
          | None => String c (sub_scan_re r repl 0 t)
          end
      end
  end.

(** [re.sub(ANSI_RE, '', s)] *)
Definition strip_colors (s : string) : string :=
  sub_scan_re ANSI_RE (fun _ => EmptyString) 0 s.

(** A [logging.LogRecord]: the message and the arguments of the log call. *)
Record LogRecord : Type := { rec_msg : Arg; rec_args : list Arg }.

Definition strip_arg (a : Arg) : Arg :=
  match a with
  | AStr x => AStr (strip_colors x)
  | _ => a
  end.

(** What [ColorFilterHandler.emit] does to the record before it hands it to
    [RotatingFileHandler.emit]. *)
Definition filter_record (r : LogRecord) : LogRecord :=
  {| rec_msg := strip_arg (rec_msg r);
     rec_args := match rec_args r with
                 | [] => []
                 | _ :: _ => map strip_arg (rec_args r)
                 end |}.

(** The key of the assignment, the literal part of the pattern. *)
Definition KEY : string := "availability_domain".

(** [str_forall f s]: every character of [s] satisfies [f]. *)
Fixpoint str_forall (f : ascii -> bool) (s : string) : bool :=
  match s with
  | EmptyString => true
  | String c t => f c && str_forall f t
  end.

Definition not_backslash (c : ascii) : bool := negb (Ascii.eqb c backslash).

(** [key_absent pre]: when the key follows [pre], it begins nowhere inside
    [pre]. *)
Fixpoint key_absent (pre : string) : bool :=
  match pre with
  | EmptyString => true
  | String _ t => negb (startswith KEY (pre +:+ KEY)) && key_absent t
  end.

(** The template of a replacement without a backslash. *)
Fixpoint literal_tpl (s : string) : list titem :=
  match s with
  | EmptyString => []
  | String c t => TChar c :: literal_tpl t
  end.

(** A text as the scan of the substitution cuts it: a character at which no
    match of the pattern begins, or a match of the pattern. *)
Inductive piece : Type :=
| Plain (c : ascii)
| Matched (m : string).

(** The text the pieces make up. *)
Fixpoint source (ps : list piece) : string :=
  match ps with
  | [] => EmptyString
  | Plain c :: ps' => String c (source ps')
  | Matched m :: ps' => m +:+ source ps'
  end.

(** The same text with the assignment of [z] in the place of every match. *)
Fixpoint edited (z : string) (ps : list piece) : string :=
  match ps with
  | [] => EmptyString
  | Plain c :: ps' => String c (edited z ps')
  | Matched _ :: ps' => line z +:+ edited z ps'
  end.

(** [scanned ps]: the pieces are those of the scan of [source ps], from left
    to right: no match begins at a [Plain] character, and [Matched m] is the
    match that begins where it stands. *)
Fixpoint scanned (ps : list piece) : bool :=
  match ps with
  | [] => true
  | Plain c :: ps' =>
      match re_match AD_RE (String c (source ps')) with
      | None => scanned ps'
      | Some _ => false
      end
  | Matched m :: ps' =>
      match re_match AD_RE (m +:+ source ps') with
      | Some rest => String.eqb rest (source ps') && scanned ps'
      | None => false
      end
  end.

(** The pieces of [two_lines]: the assignment in the comment is a match. *)
Definition two_lines_before : list piece :=
  [Plain "#"; Plain " "; Matched (line "AD-3"); Plain newline].

(** A file with the line endings of Windows. *)
Definition files_crlf : gmap string fsnode :=
  <["/cfg" := Dir]>
    (<["/cfg/terraform.tfvars" :=
       File ("x = 1" +:+ String carriage_return (String newline (line "AD-1")))]> ∅).

(** A file in which a value without its closing quote stands before the
    line. *)
Definition files_open_quote : gmap string fsnode :=
  <["/cfg" := Dir]>
    (<["/cfg/terraform.tfvars" :=
       File ("availability_domain = " +:+ String dquote (String newline (line "AD-1")))]> ∅).

(** The text of [files_commented] with the line endings of Windows. *)
Definition crlf_commented : string :=
  ("x = 1" +:+ String carriage_return (String newline EmptyString))
  +:+ line "AD-1" +:+ String carriage_return (String newline "y = 2").

Definition files_crlf_commented : gmap string fsnode :=
  <["/cfg" := Dir]> (<["/cfg/terraform.tfvars" := File crlf_commented]> ∅).

Definition not_cr (c : ascii) : bool := negb (Ascii.eqb c carriage_return).

Definition not_esc (c : ascii) : bool := negb (Ascii.eqb c esc).

(** A colour code with the parameters [ps]. *)
Definition sgr (ps : string) : string :=
  String esc (String "[" (ps +:+ String "m" EmptyString)).

Definition plain_arg (a : Arg) : bool :=
  match a with
  | AStr x => str_forall not_esc x
  | _ => true
  end.


(** [event_ok Q e]: if [e] starts a child process, [Q] holds of its command
    and its time limit. *)
Definition event_ok (Q : list string -> Z -> Prop) (e : Event) : Prop :=
  match e with
  | ERun c _ t _ => Q c t
  | _ => True
  end.

(** [w'] has the trace of [w] and, after it, events that satisfy [event_ok]. *)
Definition grows (Q : list string -> Z -> Prop) (w w' : World) : Prop :=
  exists evs, trace w' = (trace w ++ evs)%list /\ Forall (event_ok Q) evs.

Definition keeps {A} (Q : list string -> Z -> Prop) (m : M A) : Prop :=
  forall w, grows Q w (snd (m w)).

(** ** Facts about text *)

Section TextFacts.

Lemma str_app_cons c a b : String c a +:+ b = String c (a +:+ b).
Proof. reflexivity. Qed.

Lemma str_app_nil_l a : EmptyString +:+ a = a.
Proof. reflexivity. Qed.

Lemma str_app_nil_r a : a +:+ EmptyString = a.
Proof. induction a as [|c a IH]; [reflexivity|]. rewrite str_app_cons, IH. reflexivity. Qed.

Lemma str_app_assoc a b c : (a +:+ b) +:+ c = a +:+ b +:+ c.
Proof.
  induction a as [|x a IH]; [reflexivity|].
  rewrite !str_app_cons, IH. reflexivity.
Qed.

Lemma str_length_app a b :
  String.length (a +:+ b) = (String.length a + String.length b)%nat.
Proof.
  induction a as [|x a IH]; [reflexivity|].
  rewrite str_app_cons. simpl. rewrite IH. reflexivity.
Qed.

Lemma substring_app a b : substring 0 (String.length a) (a +:+ b) = a.
Proof.
  induction a as [|x a IH].
  - destruct b; reflexivity.
  - rewrite str_app_cons. simpl. rewrite IH. reflexivity.
Qed.

Lemma startswith_iff p s : startswith p s = true <-> exists r, s = p +:+ r.
Proof.
  revert s. induction p as [|a p IH]; intros s; simpl.
  - split; [intros _; exists s; reflexivity | reflexivity].
  - destruct s as [|b s].
    + split; [discriminate | intros [r Hr]; rewrite str_app_cons in Hr; discriminate].
    + rewrite andb_true_iff, Ascii.eqb_eq, IH. split.
      * intros [-> [r ->]]. exists r. reflexivity.
      * intros [r Hr]. rewrite str_app_cons in Hr. injection Hr as -> ->. eauto.
Qed.

(** [str_in] is the containment of a substring. *)
Lemma str_in_iff needle hay :
  str_in needle hay = true <-> exists a b, hay = a +:+ needle +:+ b.
Proof.
  induction hay as [|c hay IH].
  - simpl. rewrite orb_false_r, startswith_iff. split.
    + intros [r Hr]. exists EmptyString, r. exact Hr.
    + intros [[|x a] [b Hb]]; [exists b; exact Hb | rewrite str_app_cons in Hb; discriminate].
  - cbn [str_in]. rewrite orb_true_iff, IH, startswith_iff. split.
    + intros [[r Hr] | [a [b Hab]]].
      * exists EmptyString, r. exact Hr.
      * exists (String c a), b. rewrite str_app_cons, Hab. reflexivity.
    + intros [[|x a] [b Hb]].
      * left. exists b. exact Hb.
      * right. rewrite str_app_cons in Hb. injection Hb as -> ->. eauto.
Qed.

End TextFacts.

(** ** Facts about the pattern and the substitution *)

Section RegexFacts.

Lemma re_star_len cls k s rest :
  (forall s' r, k s' = Some r -> (String.length r <= String.length s')%nat) ->
  re_star cls k s = Some rest ->
  (String.length rest <= String.length s)%nat.
Proof.
  intros Hk. induction s as [|c s IH]; simpl.
  - apply Hk.
  - destruct (cls c); [|apply Hk].
    destruct (re_star cls k s) as [r|] eqn:E.
    + intros [= <-]. specialize (IH eq_refl). lia.
    + apply Hk.
Qed.

Lemma re_match_len r : forall s rest,
  re_match r s = Some rest -> (String.length rest <= String.length s)%nat.
Proof.
  induction r as [|[c|cls] r IH]; intros s rest; simpl.
  - intros [= <-]. lia.
  - destruct s as [|c' s]; [discriminate|].
    destruct (Ascii.eqb c c'); [|discriminate].
    intros H%IH. simpl. lia.
  - apply re_star_len. exact IH.
Qed.

(** A match of the pattern is never empty. *)
Lemma AD_RE_consumes s rest :
  re_match AD_RE s = Some rest -> (String.length rest < String.length s)%nat.
Proof.
  change AD_RE with (RLit "a" :: tl AD_RE).
  cbn [re_match]. destruct s as [|c s]; [discriminate|].
  destruct (Ascii.eqb "a" c); [|discriminate].
  intros H%re_match_len. simpl. lia.
Qed.

Lemma sub_scan_cons repl c t :
  sub_scan repl 0 (String c t) =
  match re_match AD_RE (String c t) with
  | Some rest =>
      let n := (String.length (String c t) - String.length rest)%nat in
      repl (substring 0 n (String c t)) +:+ sub_scan repl (n - 1) t
  | None => String c (sub_scan repl 0 t)
  end.
Proof. reflexivity. Qed.

Lemma sub_scan_skip repl a b :
  sub_scan repl (String.length a) (a +:+ b) = sub_scan repl 0 b.
Proof.
  induction a as [|c a IH]; [reflexivity|].
  rewrite str_app_cons. simpl. exact IH.
Qed.

(** Where no match begins, the character is copied. *)
Lemma sub_scan_miss repl c t :
  re_match AD_RE (String c t) = None ->
  sub_scan repl 0 (String c t) = String c (sub_scan repl 0 t).
Proof. intros H. rewrite sub_scan_cons, H. reflexivity. Qed.

(** A match is replaced, and the scan goes on after it. *)
Lemma sub_scan_hit repl m rest :
  re_match AD_RE (m +:+ rest) = Some rest ->
  sub_scan repl 0 (m +:+ rest) = repl m +:+ sub_scan repl 0 rest.
Proof.
  intros H. pose proof (AD_RE_consumes _ _ H) as Hlen.
  rewrite str_length_app in Hlen.
  destruct m as [|c m]; [simpl in Hlen; lia|].
  rewrite str_app_cons in *. rewrite sub_scan_cons, H. cbv zeta.
  rewrite <- str_app_cons.
  replace (String.length (String c m +:+ rest) - String.length rest)%nat
    with (String.length (String c m)) by (rewrite str_length_app; lia).
  rewrite substring_app. simpl String.length.
  replace (S (String.length m) - 1)%nat with (String.length m) by lia.
  rewrite sub_scan_skip. reflexivity.
Qed.

Lemma sub_scan_pre repl pre rest :
  no_match_before pre rest = true ->
  sub_scan repl 0 (pre +:+ rest) = pre +:+ sub_scan repl 0 rest.
Proof.
  induction pre as [|c pre IH]; [reflexivity|].
  cbn [no_match_before]. rewrite !str_app_cons.
  destruct (re_match AD_RE (String c (pre +:+ rest))) eqn:E; [discriminate|].
  intros H. rewrite (sub_scan_miss _ _ _ E), (IH H). reflexivity.
Qed.

Lemma sub_scan_none repl s :
  no_match_before s EmptyString = true -> sub_scan repl 0 s = s.
Proof.
  intros H. rewrite <- (str_app_nil_r s) at 1.
  rewrite (sub_scan_pre _ _ _ H). simpl. apply str_app_nil_r.
Qed.

End RegexFacts.

(** ** Running the monad *)

Section MonadFacts.

Lemma bind_eq {A B} (m : M A) (k : A -> M B) w :
  bind m k w =
  match m w with
  | (Ok a, w') => k a w'
  | (Raise e, w') => (Raise e, w')
  end.
Proof. reflexivity. Qed.

Lemma bind_ok {A B} (m : M A) (k : A -> M B) w a w' :
  m w = (Ok a, w') -> bind m k w = k a w'.
Proof. intros H. rewrite bind_eq, H. reflexivity. Qed.

Lemma bind_raise {A B} (m : M A) (k : A -> M B) w e w' :
  m w = (Raise e, w') -> bind m k w = (Raise e, w').
Proof. intros H. rewrite bind_eq, H. reflexivity. Qed.

Lemma try_ok {A} (m : M A) h w a w' :
  m w = (Ok a, w') -> try_except m h w = (Ok a, w').
Proof. intros H. unfold try_except. rewrite H. reflexivity. Qed.

Lemma try_raise {A} (m : M A) h w e w' :
  m w = (Raise e, w') -> try_except m h w = h e w'.
Proof. intros H. unfold try_except. rewrite H. reflexivity. Qed.

Lemma log_eq lvl fmt args w : log lvl fmt args w = (Ok tt, add_event (ELog lvl fmt args) w).
Proof. reflexivity. Qed.

End MonadFacts.

(** ** The variables-file editor *)

Section Editor.

Lemma read_text_file p w d :
  fs w !! p = Some (File d) -> read_text p w = (Ok (universal_newlines d), w).
Proof. intros H. unfold read_text. rewrite H. reflexivity. Qed.

Lemma write_text_file p u w d :
  fs w !! p = Some (File d) ->
  write_text p u w = (Ok tt, put_file p (to_disk w u) w).
Proof. intros H. unfold write_text. rewrite H. reflexivity. Qed.

(** The edit of a regular file [d], read as the text [c]. *)
Lemma rewrite_file_hit file ad fm mm w d c u :
  fs w !! file = Some (File d) ->
  universal_newlines d = c ->
  re_sub (ad_assignment ad) c = Ok u ->
  u <> c ->
  rewrite_file file ad fm mm w
  = (Ok true, add_event (ELog INFO fm [AStr ad]) (put_file file (to_disk w u) w)).
Proof.
  intros Hf Hc Hsub Hne. unfold rewrite_file.
  rewrite (bind_ok _ _ _ _ _ (read_text_file _ _ _ Hf)), Hc.
  rewrite (bind_ok _ _ w u w) by (unfold lift; rewrite Hsub; reflexivity).
  apply String.eqb_neq in Hne. rewrite Hne. cbn [negb].
  rewrite (bind_ok _ _ _ _ _ (write_text_file _ _ _ _ Hf)).
  rewrite (bind_ok _ _ _ _ _ (log_eq _ _ _ _)). reflexivity.
Qed.

Lemma rewrite_file_miss file ad fm mm w d c :
  fs w !! file = Some (File d) ->
  universal_newlines d = c ->
  re_sub (ad_assignment ad) c = Ok c ->
  rewrite_file file ad fm mm w = (Ok false, add_event (ELog WARNING mm []) w).
Proof.
  intros Hf Hc Hsub. unfold rewrite_file.
  rewrite (bind_ok _ _ _ _ _ (read_text_file _ _ _ Hf)), Hc.
  rewrite (bind_ok _ _ w c w) by (unfold lift; rewrite Hsub; reflexivity).
  rewrite String.eqb_refl. cbn [negb].
  rewrite (bind_ok _ _ _ _ _ (log_eq _ _ _ _)). reflexivity.
Qed.

Lemma path_exists_file p w n :
  fs w !! p = Some n -> path_exists p w = (Ok true, w).
Proof.
  intros H. unfold path_exists. rewrite bool_decide_eq_true_2 by eauto. reflexivity.
Qed.

Lemma path_exists_none p w :
  fs w !! p = None -> path_exists p w = (Ok false, w).
Proof.
  intros H. unfold path_exists.
  rewrite bool_decide_eq_false_2; [reflexivity|].
  rewrite H. intros [? ?]. discriminate.
Qed.

(** Where the substitution changes neither file, no file is written and
    both misses are logged as warnings. *)
Lemma update_without_change dir ad w d1 d2 :
  fs w !! tfvars_of dir = Some (File d1) ->
  re_sub (ad_assignment ad) (universal_newlines d1) = Ok (universal_newlines d1) ->
  fs w !! main_tf_of dir = Some (File d2) ->
  re_sub (ad_assignment ad) (universal_newlines d2) = Ok (universal_newlines d2) ->
  update_main_tf dir ad w
  = (Ok tt,
     add_event
       (ELog WARNING "Could not find availability_domain line in main.tf to update" [])
       (add_event
          (ELog WARNING
             "Could not find availability_domain line in terraform.tfvars to update" [])
          w)).
Proof.
  intros Hf1 Hs1 Hf2 Hs2. unfold update_main_tf.
  fold (tfvars_of dir). fold (main_tf_of dir).
  rewrite (bind_ok _ _ _ _ _ (path_exists_file _ _ _ Hf1)).
  rewrite (bind_ok _ _ _ _ _ (rewrite_file_miss _ _ _ _ _ _ _ Hf1 eq_refl Hs1)).
  rewrite (bind_ok _ _ _ _ _ (path_exists_file _ (add_event _ w) _ Hf2)).
  cbn [negb].
  rewrite (bind_ok _ _ _ _ _
             (rewrite_file_miss _ _ _ _ (add_event _ w) _ _ Hf2 eq_refl Hs2)).
  reflexivity.
Qed.

(** Without terraform.tfvars and main.tf nothing is read or written. *)
Lemma update_without_files dir ad w :
  fs w !! tfvars_of dir = None ->
  fs w !! main_tf_of dir = None ->
  update_main_tf dir ad w
  = (Ok tt, add_event (ELog WARNING "main.tf not found, skipping AD update" []) w).
Proof.
  intros Hf1 Hf2. unfold update_main_tf.
  fold (tfvars_of dir). fold (main_tf_of dir).
  rewrite (bind_ok _ _ _ _ _ (path_exists_none _ _ Hf1)).
  rewrite (bind_ok _ _ w false w) by reflexivity.
  rewrite (bind_ok _ _ _ _ _ (path_exists_none _ _ Hf2)).
  reflexivity.
Qed.

(** C5 as stated fails: an assignment of the key in a comment line is
    rewritten too, so the rest of the content does not stay as it was. *)
Lemma edit_changes_other_lines :
  let w' := snd (update_main_tf "/cfg" "AD-2" (world0 files_two_lines no_process)) in
  fs w' !! "/cfg/terraform.tfvars"
    = Some (File (("# " +:+ line "AD-2") +:+ String newline (line "AD-2"))) /\
  fs w' !! "/cfg/terraform.tfvars"
    <> Some (File (("# " +:+ line "AD-3") +:+ String newline (line "AD-2"))).
Proof.
  split.
  - vm_compute. reflexivity.
  - vm_compute. discriminate.
Qed.

(** C4 at a primary file that holds the key with the target value already:
    although terraform.tfvars has the assignment line, the editor logs that
    it found none and rewrites main.tf. *)
Theorem edit_falls_back_when_value_is_current :
  let w := world0 files_already_set no_process in
  let w' := snd (update_main_tf "/cfg" "AD-2" w) in
  re_search (line "AD-2") = Some "AD-2" /\
  fs w !! "/cfg/terraform.tfvars" = Some (File (line "AD-2")) /\
  fs w !! "/cfg/main.tf" = Some (File (line "AD-1")) /\
  fs w' !! "/cfg/main.tf" = Some (File (line "AD-2")) /\
  trace w' =
    [ELog WARNING
       "Could not find availability_domain line in terraform.tfvars to update" [];
     ELog INFO "Updated main.tf with availability domain: %s" [AStr "AD-2"]].
Proof.
  repeat split; vm_compute; reflexivity.
Qed.

End Editor.

(** ** Zone selection *)

Section Zones.

Lemma region_index_ok (zones : list string) (N : Z) :
  zones <> [] ->
  let L := Z.of_nat (List.length zones) in
  region_index zones N = Ok ((N - 1) mod L) /\ 0 <= (N - 1) mod L < L.
Proof.
  intros Hne L.
  assert (0 < L) as HL.
  { unfold L. destruct zones; [congruence | simpl; lia]. }
  split; [|apply Z.mod_pos_bound; exact HL].
  unfold region_index. fold L.
  destruct (Z.eqb_spec L 0); [lia | reflexivity].
Qed.

Lemma subscript_ok (zones : list string) (i : Z) :
  0 <= i < Z.of_nat (List.length zones) ->
  exists z, zones !! Z.to_nat i = Some z /\ subscript zones i = Ok z.
Proof.
  intros Hi.
  destruct (lookup_lt_is_Some_2 zones (Z.to_nat i)) as [z Hz]; [lia|].
  exists z. split; [exact Hz|].
  unfold subscript.
  destruct (Z.ltb_spec i 0); [lia|].
  destruct (Z.ltb_spec i 0); [lia|].
  destruct (Z.leb_spec (Z.of_nat (List.length zones)) i); [lia|].
  cbn [orb]. rewrite Hz. reflexivity.
Qed.

Lemma select_zone_ok (zones : list string) (N : Z) :
  zones <> [] ->
  exists z,
    zones !! Z.to_nat ((N - 1) mod Z.of_nat (List.length zones)) = Some z /\
    select_zone zones N = Ok z.
Proof.
  intros Hne. destruct (region_index_ok zones N Hne) as [Hidx Hrange].
  destruct (subscript_ok zones _ Hrange) as [z [Hz Hsub]].
  exists z. split; [exact Hz|].
  unfold select_zone. rewrite Hidx. exact Hsub.
Qed.



(** C10: on a non-empty zone list the selection of attempt N >= 1 never
    fails: the remainder is defined and lies within the list; on the empty
    list it raises for every attempt. *)
Theorem zone_selection_total (zones : list string) (N : Z)
    (Hne : zones <> []) (HN : 1 <= N) :
  (exists i zone,
     region_index zones N = Ok i /\
     0 <= i < Z.of_nat (List.length zones) /\
     zones !! Z.to_nat i = Some zone /\
     select_zone zones N = Ok zone) /\
  (forall M : Z, select_zone [] M = Raise ZeroDivisionError).
Proof.
  split; [|reflexivity].
  destruct (region_index_ok zones N Hne) as [Hidx Hrange].
  destruct (select_zone_ok zones N Hne) as [z [Hz Hsel]].
  eauto 10.
Qed.

Lemma zone_selection_total_witness :
  (exists i zone,
     region_index ["AD-1"; "AD-2"] 5 = Ok i /\
     0 <= i < Z.of_nat (List.length ["AD-1"; "AD-2"]) /\
     ["AD-1"; "AD-2"] !! Z.to_nat i = Some zone /\
     select_zone ["AD-1"; "AD-2"] 5 = Ok zone) /\
  (forall M : Z, select_zone [] M = Raise ZeroDivisionError).
Proof.
  apply (zone_selection_total ["AD-1"; "AD-2"] 5).
  - discriminate.
  - lia.
Defined.

End Zones.

(** ** Cleanup *)

Section Cleanup.

Lemma add_events_two a b w : add_event b (add_event a w) = add_events [a; b] w.
Proof. unfold add_event, add_events. simpl. rewrite <- List.app_assoc. reflexivity. Qed.

Lemma cleanup_eq dir aa w :
  cleanup_resources dir aa w = (Ok tt, cleaned dir aa w).
Proof.
  unfold cleanup_resources, cleaned.
  rewrite (bind_ok _ _ _ _ _ (log_eq _ _ _ _)).
  set (w1 := add_event _ w).
  assert (oracle w1 (calls w1) = oracle w (calls w)) as Ho by reflexivity.
  unfold try_except. rewrite bind_eq. unfold subprocess_run. rewrite Ho.
  destruct (oracle w (calls w)) as [r|e]; cbn [cleanup_logs].
  - destruct (returncode r =? 0).
    + rewrite (bind_ok _ _ _ _ _ (log_eq _ _ _ _)), log_eq, add_events_two.
      reflexivity.
    + rewrite (bind_ok _ _ _ _ _ (log_eq _ _ _ _)), log_eq, add_events_two.
      reflexivity.
  - destruct e; reflexivity.
Qed.

Lemma cleaned_trace dir aa w :
  trace (cleaned dir aa w) =
  (trace w ++
   [ELog INFO "Running terraform destroy to clean up all resources..." [];
    ERun (destroy_cmd aa) dir 1800 (oracle w (calls w))] ++
   cleanup_logs (oracle w (calls w)))%list.
Proof.
  unfold cleaned. cbn [trace add_events started add_event oracle calls].
  rewrite <- !List.app_assoc. reflexivity.
Qed.

End Cleanup.

(** ** The retry loop *)

Section Driver.

Lemma loop_step p N w :
  loop p N w =
  if Z_le_gt_dec N (max_attempts p) then
    match iteration p N w with
    | (Ok CContinue, w') => loop p (N + 1) w'
    | (Ok (CReturn b), w') => (Ok b, w')
    | (Ok CElse, w') => (Ok false, w')
    | (Raise e, w') => (Raise e, w')
    end
  else attempts_exceeded p w.
Proof.
  rewrite loop_equation_1.
  destruct (Z_le_gt_dec N (max_attempts p)); [|reflexivity].
  cbn. destruct (iteration p N w) as [[[b| |]|e] w']; reflexivity.
Qed.

Lemma loop_continue p N w w' :
  N <= max_attempts p ->
  iteration p N w = (Ok CContinue, w') ->
  loop p N w = loop p (N + 1) w'.
Proof.
  intros HN Hit. rewrite loop_step, Hit.
  destruct (Z_le_gt_dec N (max_attempts p)); [reflexivity | lia].
Qed.

Lemma loop_return p N w b w' :
  N <= max_attempts p ->
  iteration p N w = (Ok (CReturn b), w') ->
  loop p N w = (Ok b, w').
Proof.
  intros HN Hit. rewrite loop_step, Hit.
  destruct (Z_le_gt_dec N (max_attempts p)); [reflexivity | lia].
Qed.

Lemma iteration_after_prelude p N w z w1 :
  prelude p N w = (Ok z, w1) -> iteration p N w = attempt p N w1.
Proof. intros H. unfold iteration. rewrite (bind_ok _ _ _ _ _ H). reflexivity. Qed.

Lemma when_true m w : when true m w = m w.
Proof. reflexivity. Qed.

Lemma when_false m w : when false m w = (Ok tt, w).
Proof. reflexivity. Qed.

Lemma try_body_failure p N w1 r :
  oracle w1 (calls w1) = Completed r ->
  returncode r <> 0 ->
  try_body p N w1 = after_report p N r (failure_reported p r w1).
Proof.
  intros Hrun Hrc. unfold try_body.
  rewrite (bind_ok _ _ w1 r (started (cmd p) (config_dir p) (timeout p) w1))
    by (unfold subprocess_run; rewrite Hrun; reflexivity).
  apply Z.eqb_neq in Hrc. rewrite Hrc.
  rewrite (bind_ok _ _ _ _ _ (log_eq _ _ _ _)).
  unfold failure_reported, after_report.
  destruct (isEnabledFor (logger p) DEBUG); cbn [when].
  - rewrite (bind_ok _ _ _ _ _ (log_eq _ _ _ _)). reflexivity.
  - reflexivity.
Qed.

Lemma when_cleanup p w :
  when (negb (no_cleanup p)) (cleanup_resources (config_dir p) (auto_approve p)) w
  = (Ok tt, cleanup_done p w).
Proof.
  unfold cleanup_done. destruct (no_cleanup p); cbn [negb].
  - reflexivity.
  - rewrite when_true. apply cleanup_eq.
Qed.

Lemma time_sleep_ok d w :
  sleep_accepts d = true -> time_sleep d w = (Ok tt, add_event (ESleep d) w).
Proof.
  unfold sleep_accepts, time_sleep, SLEEP_MAX. intros [H1 H2]%andb_true_iff.
  apply Z.leb_le in H1, H2.
  replace (d <? Z.opp 9223372036) with false by (symmetry; apply Z.ltb_ge; lia).
  replace (9223372036 <? d) with false by (symmetry; apply Z.ltb_ge; lia).
  replace (d <? 0) with false by (symmetry; apply Z.ltb_ge; lia).
  reflexivity.
Qed.

(** C8: when the invocation runs out of time, the iteration logs a warning
    and goes to the next attempt number: nothing sleeps, no destroy is
    started, no file changes. *)
Theorem timeout_advances_attempt (p : Params) (N : Z) (w w1 : World) (z : string)
    (HN : N <= max_attempts p)
    (Hpre : prelude p N w = (Ok z, w1))
    (Hrun : oracle w1 (calls w1) = Raises TimeoutExpired) :
  let w2 := add_event (ELog WARNING "Terraform apply timed out. Retrying..." [])
                      (started (cmd p) (config_dir p) (timeout p) w1) in
  iteration p N w = (Ok CContinue, w2) /\
  loop p N w = loop p (N + 1) w2 /\
  trace w2 = (trace w1 ++
              [ERun (cmd p) (config_dir p) (timeout p) (Raises TimeoutExpired);
               ELog WARNING "Terraform apply timed out. Retrying..." []])%list /\
  calls w2 = S (calls w1) /\
  fs w2 = fs w1.
Proof.
  intros w2.
  assert (iteration p N w = (Ok CContinue, w2)) as Hit.
  { rewrite (iteration_after_prelude _ _ _ _ _ Hpre). unfold attempt.
    rewrite (bind_ok _ _ w1 CContinue w2); [reflexivity|].
    rewrite (try_raise _ _ w1 TimeoutExpired
               (started (cmd p) (config_dir p) (timeout p) w1)).
    - reflexivity.
    - unfold try_body. apply bind_raise.
      unfold subprocess_run. rewrite Hrun. reflexivity. }
  split; [exact Hit|]. split; [exact (loop_continue _ _ _ _ HN Hit)|].
  split; [|split; reflexivity].
  unfold w2. cbn [trace add_event started]. rewrite Hrun, <- List.app_assoc.
  reflexivity.
Qed.

(** C6: in plan-only mode a non-zero exit ends the run with [False] at once:
    after the report of the failure nothing else happens, so no destroy is
    started and no other attempt is made. *)
Theorem plan_failure_is_terminal (p : Params) (N : Z) (w w1 : World) (z : string)
    (r : CompletedProcess)
    (Hmode : plan_only p = true)
    (HN : N <= max_attempts p)
    (Hpre : prelude p N w = (Ok z, w1))
    (Hrun : oracle w1 (calls w1) = Completed r)
    (Hrc : returncode r <> 0) :
  let w2 := failure_reported p r w1 in
  iteration p N w = (Ok (CReturn false), w2) /\
  loop p N w = (Ok false, w2) /\
  trace w2 = (trace w1 ++
              [ERun ["terraform"; "plan"] (config_dir p) (timeout p) (Completed r);
               ELog WARNING "Terraform %s failed (exit code: %d)"
                    [AStr "plan"; AInt (returncode r)]] ++
              (if isEnabledFor (logger p) DEBUG
               then [ELog DEBUG (with_text "Error output:") [AStr (stderr r)]]
               else []))%list /\
  calls w2 = S (calls w1) /\
  fs w2 = fs w1.
Proof.
  intros w2.
  assert (iteration p N w = (Ok (CReturn false), w2)) as Hit.
  { rewrite (iteration_after_prelude _ _ _ _ _ Hpre). unfold attempt.
    rewrite (bind_ok _ _ w1 (CReturn false) w2); [reflexivity|].
    apply try_ok. rewrite (try_body_failure _ _ _ _ Hrun Hrc).
    unfold after_report. rewrite Hmode. reflexivity. }
  split; [exact Hit|]. split; [exact (loop_return _ _ _ _ _ HN Hit)|].
  unfold w2, failure_reported, cmd, operation. rewrite Hmode.
  cbn [negb]. rewrite andb_false_r. cbn [app].
  destruct (isEnabledFor (logger p) DEBUG);
    cbn [trace calls fs add_event started]; rewrite ?Hrun, <- ?List.app_assoc;
    repeat split; reflexivity.
Qed.

(** C1, as amended: after a non-zero exit of apply (not plan-only), with a
    retry delay that [time.sleep] accepts, the iteration goes on to the next
    attempt exactly when the lowered error text holds one of the two markers
    and the attempt number is below max_attempts; it then ends with the
    sleep of the retry delay.  In every other case the run returns
    [False]. *)
Theorem retry_decision (p : Params) (N : Z) (w w1 : World) (z : string)
    (r : CompletedProcess)
    (Hmode : plan_only p = false)
    (HN : N <= max_attempts p)
    (Hpre : prelude p N w = (Ok z, w1))
    (Hrun : oracle w1 (calls w1) = Completed r)
    (Hrc : returncode r <> 0)
    (Hsleep : sleep_accepts (retry_delay p) = true) :
  let retry :=
    (str_in "out of host capacity" (lower (stderr r)) ||
     str_in "internalerror" (lower (stderr r))) &&
    (N <? max_attempts p) in
  exists w2,
    iteration p N w = (Ok (if retry then CContinue else CReturn false), w2) /\
    loop p N w = (if retry then loop p (N + 1) w2 else (Ok false, w2)) /\
    (retry = true ->
     exists evs,
       trace w2 =
       (evs ++
        [ELog INFO "Detected recoverable error (host capacity). Retrying in %d seconds..."
              [AInt (retry_delay p)];
         ESleep (retry_delay p)])%list).
Proof.
  intros retry.
  assert (exists w2,
            iteration p N w = (Ok (if retry then CContinue else CReturn false), w2) /\
            (retry = true ->
             exists evs,
               trace w2 =
               (evs ++
                [ELog INFO "Detected recoverable error (host capacity). Retrying in %d seconds..."
                      [AInt (retry_delay p)];
                 ESleep (retry_delay p)])%list)) as [w2 [Hit Htr]].
  { rewrite (iteration_after_prelude _ _ _ _ _ Hpre). unfold attempt.
    rewrite bind_eq. unfold try_except.
    rewrite (try_body_failure _ _ _ _ Hrun Hrc).
    unfold after_report. rewrite Hmode.
    rewrite (bind_ok _ _ _ _ _ (when_cleanup _ _)).
    unfold retry, recoverable.
    destruct (str_in "out of host capacity" (lower (stderr r)) ||
              str_in "internalerror" (lower (stderr r))); cbn [andb].
    - destruct (N <? max_attempts p).
      + rewrite (bind_ok _ _ _ _ _ (log_eq _ _ _ _)).
        rewrite (bind_ok _ _ _ _ _ (time_sleep_ok _ _ Hsleep)).
        eexists. split; [reflexivity|]. intros _.
        eexists. cbn [trace add_event]. rewrite <- List.app_assoc. reflexivity.
      + rewrite (bind_ok _ _ _ _ _ (log_eq _ _ _ _)).
        eexists. split; [reflexivity | discriminate].
    - rewrite (bind_ok _ _ _ _ _ (log_eq _ _ _ _)).
      eexists. split; [reflexivity | discriminate]. }
  exists w2. split; [exact Hit|]. split; [|exact Htr].
  destruct retry.
  - exact (loop_continue _ _ _ _ HN Hit).
  - exact (loop_return _ _ _ _ _ HN Hit).
Qed.

Lemma timeout_advances_attempt_witness :
  let w1 := snd (prelude params0 1 w_timeout) in
  let w2 := add_event (ELog WARNING "Terraform apply timed out. Retrying..." [])
                      (started (cmd params0) (config_dir params0) (timeout params0) w1) in
  iteration params0 1 w_timeout = (Ok CContinue, w2) /\
  loop params0 1 w_timeout = loop params0 (1 + 1) w2 /\
  trace w2 = (trace w1 ++
              [ERun (cmd params0) (config_dir params0) (timeout params0)
                    (Raises TimeoutExpired);
               ELog WARNING "Terraform apply timed out. Retrying..." []])%list /\
  calls w2 = S (calls w1) /\
  fs w2 = fs w1.
Proof.
  apply (timeout_advances_attempt params0 1 w_timeout
           (snd (prelude params0 1 w_timeout)) "AD-1").
  - vm_compute. discriminate.
  - vm_compute. reflexivity.
  - vm_compute. reflexivity.
Defined.

Lemma plan_failure_is_terminal_witness :
  let r := {| returncode := 1; stdout := ""; stderr := "Error: Out of host capacity" |} in
  let w1 := snd (prelude params_plan 1 w_capacity) in
  let w2 := failure_reported params_plan r w1 in
  iteration params_plan 1 w_capacity = (Ok (CReturn false), w2) /\
  loop params_plan 1 w_capacity = (Ok false, w2) /\
  trace w2 = (trace w1 ++
              [ERun ["terraform"; "plan"] (config_dir params_plan)
                    (timeout params_plan) (Completed r);
               ELog WARNING "Terraform %s failed (exit code: %d)"
                    [AStr "plan"; AInt (returncode r)]] ++
              (if isEnabledFor (logger params_plan) DEBUG
               then [ELog DEBUG (with_text "Error output:") [AStr (stderr r)]]
               else []))%list /\
  calls w2 = S (calls w1) /\
  fs w2 = fs w1.
Proof.
  apply (plan_failure_is_terminal params_plan 1 w_capacity
           (snd (prelude params_plan 1 w_capacity)) "AD-1").
  - reflexivity.
  - vm_compute. discriminate.
  - vm_compute. reflexivity.
  - vm_compute. reflexivity.
  - vm_compute. discriminate.
Defined.

Lemma retry_decision_witness :
  let r := {| returncode := 1; stdout := ""; stderr := "Error: Out of host capacity" |} in
  let retry :=
    (str_in "out of host capacity" (lower (stderr r)) ||
     str_in "internalerror" (lower (stderr r))) &&
    (1 <? max_attempts params0) in
  exists w2,
    iteration params0 1 w_capacity
      = (Ok (if retry then CContinue else CReturn false), w2) /\
    loop params0 1 w_capacity
      = (if retry then loop params0 (1 + 1) w2 else (Ok false, w2)) /\
    (retry = true ->
     exists evs,
       trace w2 =
       (evs ++
        [ELog INFO "Detected recoverable error (host capacity). Retrying in %d seconds..."
              [AInt (retry_delay params0)];
         ESleep (retry_delay params0)])%list).
Proof.
  apply (retry_decision params0 1 w_capacity
           (snd (prelude params0 1 w_capacity)) "AD-1").
  - reflexivity.
  - vm_compute. discriminate.
  - vm_compute. reflexivity.
  - vm_compute. reflexivity.
  - vm_compute. discriminate.
  - vm_compute. reflexivity.
Defined.

(** C1 as stated fails for a retry delay that [time.sleep] rejects: with a
    marker in the error text and attempts left, the sleep raises and the run
    ends with [False] after one apply. *)
Lemma negative_delay_stops_retry :
  let err := "Error: Out of host capacity" in
  (str_in "out of host capacity" (lower err) || str_in "internalerror" (lower err)) = true /\
  (1 <? max_attempts params_negative_delay) = true /\
  fst (iteration params_negative_delay 1 w_capacity) = Ok (CReturn false) /\
  fst (iteration params_negative_delay 1 w_capacity) <> Ok CContinue /\
  fst (run_terraform_apply params_negative_delay w_capacity) = Ok false /\
  List.filter (fun e => match e with
                        | ERun ("terraform" :: "apply" :: _) _ _ _ => true
                        | _ => false
                        end)
              (trace (snd (run_terraform_apply params_negative_delay w_capacity)))
  = [ERun ["terraform"; "apply"; "-auto-approve"] "/cfg" 1800
          (failed 1 "Error: Out of host capacity")].
Proof.
  repeat split; try (vm_compute; reflexivity).
  vm_compute. discriminate.
Qed.

End Driver.

(** ** What a run adds to the trace *)

Section TraceInvariant.

(** [Q cmd time_limit] is what is to hold of every child process started. *)
Variable Q : list string -> Z -> Prop.

Lemma grows_refl w : grows Q w w.
Proof. exists []. split; [symmetry; apply List.app_nil_r | constructor]. Qed.

Lemma grows_trans w1 w2 w3 : grows Q w1 w2 -> grows Q w2 w3 -> grows Q w1 w3.
Proof.
  intros [e1 [H1 F1]] [e2 [H2 F2]]. exists (e1 ++ e2)%list. split.
  - rewrite H2, H1, List.app_assoc. reflexivity.
  - apply Forall_app. split; assumption.
Qed.

Lemma grows_event e w : event_ok Q e -> grows Q w (add_event e w).
Proof. intros H. exists [e]. split; [reflexivity | repeat constructor; exact H]. Qed.

Lemma keeps_ret {A} (a : A) : keeps Q (ret a).
Proof. intros w. apply grows_refl. Qed.

Lemma keeps_raise {A} e : keeps Q (@raise A e).
Proof. intros w. apply grows_refl. Qed.

Lemma keeps_lift {A} (r : result A) : keeps Q (lift r).
Proof. intros w. apply grows_refl. Qed.

Lemma keeps_bind {A B} (m : M A) (k : A -> M B) :
  keeps Q m -> (forall a, keeps Q (k a)) -> keeps Q (bind m k).
Proof.
  intros Hm Hk w. rewrite bind_eq. specialize (Hm w).
  destruct (m w) as [[a|e] w']; cbn [snd] in *.
  - exact (grows_trans _ _ _ Hm (Hk a w')).
  - exact Hm.
Qed.

Lemma keeps_try {A} (m : M A) h :
  keeps Q m -> (forall e, keeps Q (h e)) -> keeps Q (try_except m h).
Proof.
  intros Hm Hh w. unfold try_except. specialize (Hm w).
  destruct (m w) as [[a|e] w']; cbn [snd] in *.
  - exact Hm.
  - exact (grows_trans _ _ _ Hm (Hh e w')).
Qed.

Lemma keeps_when b m : (b = true -> keeps Q m) -> keeps Q (when b m).
Proof. intros Hm. destruct b; [exact (Hm eq_refl) | apply keeps_ret]. Qed.

Lemma keeps_log l f a : keeps Q (log l f a).
Proof. intros w. apply grows_event. exact I. Qed.

Lemma keeps_log_exception f a : keeps Q (log_exception f a).
Proof. intros w. apply grows_event. exact I. Qed.

Lemma keeps_path_exists p : keeps Q (path_exists p).
Proof. intros w. apply grows_refl. Qed.

Lemma keeps_read_text p : keeps Q (read_text p).
Proof.
  intros w. unfold read_text.
  destruct (fs w !! p) as [[|c|[c|] [|] wr]|]; apply grows_refl.
Qed.

Lemma keeps_write_text p c : keeps Q (write_text p c).
Proof.
  intros w. unfold write_text.
  destruct (fs w !! p) as [[|c'|c' rd [|]]|]; cbn [snd]; try apply grows_refl;
    exists []; (split; [symmetry; apply List.app_nil_r | constructor]).
Qed.

Lemma keeps_time_sleep d : keeps Q (time_sleep d).
Proof.
  intros w. unfold time_sleep.
  destruct (_ || _); [apply grows_refl|].
  destruct (d <? 0); [apply grows_refl|]. apply grows_event. exact I.
Qed.

Lemma keeps_subprocess_run c cwd t : Q c t -> keeps Q (subprocess_run c cwd t).
Proof.
  intros H w. unfold subprocess_run.
  assert (grows Q w (started c cwd t w)) as G.
  { eexists. split; [reflexivity | repeat constructor; exact H]. }
  destruct (oracle w (calls w)); exact G.
Qed.

Create HintDb keeps.
#[local] Hint Resolve keeps_ret keeps_raise keeps_lift keeps_log
  keeps_log_exception keeps_path_exists keeps_read_text keeps_write_text
  keeps_time_sleep keeps_subprocess_run : keeps.

Ltac keeps_tac :=
  repeat match goal with
    | |- keeps _ (bind _ _) => apply keeps_bind; [|intros ?]
    | |- keeps _ (try_except _ _) => apply keeps_try; [|intros ?]
    | |- keeps _ (when _ _) => apply keeps_when; intros ?
    | |- keeps _ (if ?b then _ else _) => destruct b eqn:?
    | |- keeps _ (match ?x with _ => _ end) => destruct x
    | |- keeps _ _ => solve [auto with keeps]
    end.

Ltac guard_tac :=
  repeat match goal with
    | H : negb _ = true |- _ => apply negb_true_iff in H
    | H : _ && _ = true |- _ => apply andb_true_iff in H; destruct H
    end;
  congruence.

Lemma keeps_cleanup dir aa : Q (destroy_cmd aa) 1800 -> keeps Q (cleanup_resources dir aa).
Proof. intros H. unfold cleanup_resources. keeps_tac. Qed.

Lemma keeps_rewrite_file f ad fm mm : keeps Q (rewrite_file f ad fm mm).
Proof. unfold rewrite_file. keeps_tac. Qed.

Lemma keeps_update_main_tf dir ad : keeps Q (update_main_tf dir ad).
Proof.
  unfold update_main_tf. pose proof keeps_rewrite_file. keeps_tac.
Qed.

Variable p : Params.
Hypothesis Hcmd : Q (cmd p) (timeout p).
Hypothesis Hdestroy :
  no_cleanup p = false -> plan_only p = false ->
  Q (destroy_cmd (auto_approve p)) 1800.

Lemma keeps_try_body N : keeps Q (try_body p N).
Proof.
  unfold try_body. keeps_tac.
  apply keeps_cleanup, Hdestroy; guard_tac.
Qed.

Lemma keeps_handlers e : keeps Q (handlers p e).
Proof.
  unfold handlers. destruct e; keeps_tac.
  all: apply keeps_cleanup, Hdestroy; guard_tac.
Qed.

Lemma keeps_iteration N : keeps Q (iteration p N).
Proof.
  unfold iteration, prelude, use_zone.
  pose proof keeps_update_main_tf. pose proof keeps_try_body.
  pose proof keeps_handlers. keeps_tac.
Qed.

Lemma keeps_attempts_exceeded : keeps Q (attempts_exceeded p).
Proof.
  unfold attempts_exceeded. keeps_tac.
  apply keeps_cleanup, Hdestroy; guard_tac.
Qed.

Lemma keeps_loop_within (n : nat) : forall N w,
  (Z.to_nat (max_attempts p + 1 - N) <= n)%nat -> grows Q w (snd (loop p N w)).
Proof.
  induction n as [|n IH]; intros N w Hn; rewrite loop_step;
    destruct (Z_le_gt_dec N (max_attempts p)) as [Hle|Hgt];
    try apply keeps_attempts_exceeded; [lia|].
  pose proof (keeps_iteration N w) as Hit.
  destruct (iteration p N w) as [[[b| |]|e] w'] eqn:E;
    cbn [snd] in *; try exact Hit.
  eapply grows_trans; [exact Hit|]. apply IH. lia.
Qed.

Lemma keeps_loop N : keeps Q (loop p N).
Proof. intros w. eapply keeps_loop_within. reflexivity. Qed.

Lemma keeps_run : keeps Q (run_terraform_apply p).
Proof.
  unfold run_terraform_apply. pose proof keeps_loop. keeps_tac.
Qed.

End TraceInvariant.

(** ** Destroy invocations of a run *)

Section Destroy.

Lemma cmd_is_not_destroy p cwd t out : is_destroy (ERun (cmd p) cwd t out) = false.
Proof. unfold cmd, operation. destruct (plan_only p); reflexivity. Qed.

(** C7: with the no-cleanup flag set, nothing that a run of the driver adds
    to the trace starts a destroy, whatever the child processes do. *)
Theorem no_cleanup_never_destroys (p : Params) (w : World)
    (Hflag : no_cleanup p = true) :
  exists evs,
    trace (snd (run_terraform_apply p w)) = (trace w ++ evs)%list /\
    Forall (fun e => is_destroy e = false) evs.
Proof.
  destruct (keeps_run (fun c _ => c = cmd p) p eq_refl
              ltac:(intros Hn; congruence) w) as [evs [Htr Hall]].
  exists evs. split; [exact Htr|].
  eapply Forall_impl; [exact Hall|].
  intros [| |c cwd t out|] He; try reflexivity.
  cbn [event_ok] in He. subst c. apply cmd_is_not_destroy.
Qed.

Lemma no_cleanup_never_destroys_witness :
  exists evs,
    trace (snd (run_terraform_apply params_no_cleanup w_capacity))
      = (trace w_capacity ++ evs)%list /\
    Forall (fun e => is_destroy e = false) evs.
Proof.
  apply (no_cleanup_never_destroys params_no_cleanup w_capacity).
  reflexivity.
Defined.

(** C9: [cleanup_resources] always returns normally, whatever the destroy
    invocation does; it logs how the invocation ended (an exception, the
    expiry of the time limit included, goes to [logger.exception]); the time
    limit of the invocation is 1800 seconds, also in a run of the driver
    with any other timeout for apply or plan. *)
Theorem cleanup_never_raises (dir : string) (aa : bool) (w : World) :
  cleanup_resources dir aa w = (Ok tt, cleaned dir aa w) /\
  trace (cleaned dir aa w) =
    (trace w ++
     [ELog INFO "Running terraform destroy to clean up all resources..." [];
      ERun (destroy_cmd aa) dir 1800 (oracle w (calls w))] ++
     cleanup_logs (oracle w (calls w)))%list /\
  cleanup_logs (Raises TimeoutExpired)
    = [ELogException "Terraform destroy timed out" []] /\
  (forall e, e <> TimeoutExpired ->
     cleanup_logs (Raises e)
       = [ELogException "Unexpected error during resource cleanup:" []]) /\
  (forall (p : Params) (w0 : World),
     exists evs,
       trace (snd (run_terraform_apply p w0)) = (trace w0 ++ evs)%list /\
       Forall (fun e => match e with
                        | ERun _ _ t _ => is_destroy e = true -> t = 1800
                        | _ => True
                        end) evs).
Proof.
  split; [apply cleanup_eq|]. split; [apply cleaned_trace|].
  split; [reflexivity|]. split.
  { intros e He. destruct e; try reflexivity. congruence. }
  intros p w0.
  destruct (keeps_run (fun c t => c = cmd p \/ t = 1800) p
              (or_introl eq_refl) ltac:(intros _ _; right; reflexivity) w0)
    as [evs [Htr Hall]].
  exists evs. split; [exact Htr|].
  eapply Forall_impl; [exact Hall|].
  intros [| |c cwd t out|] He; try exact I.
  cbn [event_ok] in He. destruct He as [->|Ht]; [|intros _; exact Ht].
  rewrite cmd_is_not_destroy. discriminate.
Qed.

End Destroy.

(** ** The exit status *)

Section ExitStatus.

(** C3, as amended: the exit status is 0 when the driver reports success and
    1 when it reports failure; with both --quiet and --verbose the program
    leaves through [parser.error], whose exit status is 2. *)
Theorem main_exit_status (a : Args) (w w1 w2 : World) (zones : list string) (b : bool)
    (Hflags : arg_quiet a && arg_verbose a = false)
    (Hres : (announce a >> resolve_domains a) w = (Ok (inr zones), w1))
    (Hrun : run_terraform_apply
              (params_of a (setup_logging (log_level_of a)) zones) w1 = (Ok b, w2)) :
  exit_status (fst (main a w)) = (if b then 0 else 1) /\
  (forall (a' : Args) (w' : World),
     arg_quiet a' && arg_verbose a' = true ->
     main a' w' = (Ok (SystemExit 2), w') /\ exit_status (fst (main a' w')) = 2).
Proof.
  split.
  - unfold main. rewrite Hflags.
    rewrite bind_eq in Hres.
    rewrite bind_eq. destruct (announce a w) as [[[]|e] wa]; [|discriminate].
    rewrite (bind_ok _ _ _ _ _ Hres).
    rewrite (bind_ok _ _ _ _ _ Hrun).
    destruct b; reflexivity.
  - intros a' w' H. unfold main. rewrite H. split; reflexivity.
Qed.

Lemma main_exit_status_witness :
  exit_status (fst (main args0 w_success)) = (if true then 0 else 1) /\
  (forall (a' : Args) (w' : World),
     arg_quiet a' && arg_verbose a' = true ->
     main a' w' = (Ok (SystemExit 2), w') /\ exit_status (fst (main a' w')) = 2).
Proof.
  apply (main_exit_status args0 w_success
           (snd ((announce args0 >> resolve_domains args0) w_success))
           (snd (run_terraform_apply
                   (params_of args0 (setup_logging (log_level_of args0))
                              ["AD-1"; "AD-2"; "AD-3"])
                   (snd ((announce args0 >> resolve_domains args0) w_success))))
           ["AD-1"; "AD-2"; "AD-3"] true).
  - reflexivity.
  - vm_compute. reflexivity.
  - vm_compute. reflexivity.
Defined.

(** C3 as stated fails: with both flags the exit status is 2, not 1. *)
Lemma quiet_verbose_exit_status :
  exit_status (fst (main args_quiet_verbose w_success)) = 2 /\
  exit_status (fst (main args_quiet_verbose w_success)) <> 1.
Proof. split; vm_compute; [reflexivity | discriminate]. Qed.

End ExitStatus.

(** ** The editor on any value and any plain zone *)

Section EditorGeneral.

Lemma str_forall_app f a b :
  str_forall f (a +:+ b) = str_forall f a && str_forall f b.
Proof.
  induction a as [|c a IH]; [reflexivity|].
  rewrite str_app_cons. cbn [str_forall]. rewrite IH, andb_assoc. reflexivity.
Qed.

(** A replacement without a backslash is taken as it is. *)
Lemma parse_literal s :
  str_forall not_backslash s = true ->
  parse_template None s = Ok (literal_tpl s).
Proof.
  induction s as [|c s IH]; [reflexivity|].
  cbn [str_forall]. intros [Hc Hs]%andb_true_iff.
  cbn [parse_template literal_tpl]. unfold not_backslash in Hc.
  rewrite Hc, (IH Hs). reflexivity.
Qed.

Lemma expand_literal s m : expand_template (literal_tpl s) m = s.
Proof. induction s as [|c s IH]; [reflexivity|]. cbn. rewrite IH. reflexivity. Qed.

Lemma ad_assignment_plain z :
  str_forall not_backslash z = true ->
  parse_template None (ad_assignment z) = Ok (literal_tpl (ad_assignment z)).
Proof.
  intros Hz. apply parse_literal. unfold ad_assignment, quoted.
  rewrite str_forall_app. cbn [str_forall]. rewrite str_forall_app, Hz.
  reflexivity.
Qed.

(** The greedy star over a run of the class, stopped by a character outside
    of it. *)
Lemma re_star_run cls k v c rest r :
  str_forall cls v = true ->
  cls c = false ->
  k (String c rest) = Some r ->
  re_star cls k (v +:+ String c rest) = Some r.
Proof.
  intros Hv Hc Hk. induction v as [|x v IH].
  - cbn [String.append re_star]. rewrite str_app_nil_l. cbn [re_star].
    rewrite Hc. exact Hk.
  - cbn [str_forall] in Hv. apply andb_true_iff in Hv as [Hx Hv].
    rewrite str_app_cons. cbn [re_star]. rewrite Hx, (IH Hv). reflexivity.
Qed.

Lemma re_match_lits k r s :
  re_match (lits k ++ r)%list (k +:+ s) = re_match r s.
Proof.
  induction k as [|c k IH]; [reflexivity|].
  rewrite str_app_cons. cbn [lits app re_match].
  rewrite Ascii.eqb_refl. exact IH.
Qed.

Lemma line_app v post :
  line v +:+ post
  = KEY +:+ String " " (String "=" (String " " (String dquote (v +:+ String dquote post)))).
Proof.
  unfold line, ad_assignment, quoted, KEY.
  rewrite str_app_assoc.
  change ("availability_domain = " +:+ ?x)
    with ("availability_domain" +:+ String " " (String "=" (String " " x))).
  f_equal. rewrite !str_app_cons, str_app_assoc. reflexivity.
Qed.

Lemma re_match_lit c r s : re_match (RLit c :: r) (String c s) = re_match r s.
Proof. cbn [re_match]. rewrite Ascii.eqb_refl. reflexivity. Qed.

(** The pattern matches the whole assignment line of a value without a
    double quote. *)
Lemma line_matches v post :
  str_forall not_dquote v = true ->
  re_match AD_RE (line v +:+ post) = Some post.
Proof.
  intros Hv. rewrite line_app. unfold AD_RE. fold KEY.
  rewrite re_match_lits.
  change (re_match (RStar is_space :: ?r) ?s) with (re_star is_space (re_match r) s).
  apply (re_star_run is_space _ " " "="); [reflexivity | reflexivity |].
  rewrite re_match_lit.
  change (re_match (RStar is_space :: ?r) ?s) with (re_star is_space (re_match r) s).
  apply (re_star_run is_space _ " " dquote); [reflexivity | reflexivity |].
  rewrite re_match_lit.
  change (re_match (RStar not_dquote :: ?r) ?s)
    with (re_star not_dquote (re_match r) s).
  apply re_star_run; [exact Hv | reflexivity |].
  rewrite re_match_lit. reflexivity.
Qed.

(** The reader takes the value between the quotes of a matched line. *)
Lemma group1_line z : group1 (line z) = z.
Proof.
  unfold group1.
  assert (drop_to_dquote (line z) = z +:+ String dquote EmptyString) as ->.
  { reflexivity. }
  rewrite str_length_app. cbn [String.length].
  replace (String.length z + 1 - 1)%nat with (String.length z) by lia.
  apply substring_app.
Qed.

Lemma startswith_app_long k x y :
  (String.length k <= String.length x)%nat ->
  startswith k (x +:+ y) = startswith k x.
Proof.
  revert x. induction k as [|a k IH]; intros x Hlen; [reflexivity|].
  destruct x as [|b x]; [cbn in Hlen; lia|].
  rewrite str_app_cons. cbn [startswith]. rewrite IH; [reflexivity|].
  cbn in Hlen. lia.
Qed.

Lemma re_match_needs_lits k r s rest :
  re_match (lits k ++ r)%list s = Some rest -> startswith k s = true.
Proof.
  revert s. induction k as [|c k IH]; intros s; [reflexivity|].
  cbn [lits app re_match]. destruct s as [|c' s]; [discriminate|].
  destruct (Ascii.eqb c c') eqn:E; [|discriminate].
  intros H. cbn [startswith]. rewrite E. exact (IH _ H).
Qed.

Lemma no_match_without_key s : startswith KEY s = false -> re_match AD_RE s = None.
Proof.
  intros H. destruct (re_match AD_RE s) as [rest|] eqn:E; [|reflexivity].
  unfold AD_RE in E. fold KEY in E.
  apply re_match_needs_lits in E. congruence.
Qed.

(** Where the key does not begin inside [pre], no match begins there, with
    whatever follows the key. *)
Lemma key_absent_no_match pre y :
  key_absent pre = true -> no_match_before pre (KEY +:+ y) = true.
Proof.
  induction pre as [|c pre IH]; [reflexivity|].
  cbn [key_absent no_match_before].
  intros [Hk Hpre]%andb_true_iff. apply negb_true_iff in Hk.
  rewrite no_match_without_key; [exact (IH Hpre)|].
  rewrite <- str_app_assoc, startswith_app_long; [exact Hk|].
  rewrite str_length_app. unfold KEY. cbn [String.length]. lia.
Qed.

Lemma key_absent_before_line pre v post :
  key_absent pre = true -> no_match_before pre (line v +:+ post) = true.
Proof. intros H. rewrite line_app. apply key_absent_no_match. exact H. Qed.

Lemma split_at_dquote a b x y :
  str_forall not_dquote a = true ->
  str_forall not_dquote b = true ->
  a +:+ String dquote x = b +:+ String dquote y ->
  a = b.
Proof.
  revert b. induction a as [|c a IH]; intros [|d b] Ha Hb H.
  - reflexivity.
  - rewrite str_app_nil_l, str_app_cons in H. injection H as <- _.
    cbn [str_forall] in Hb. discriminate.
  - rewrite str_app_nil_l, str_app_cons in H. injection H as -> _.
    cbn [str_forall] in Ha. discriminate.
  - rewrite !str_app_cons in H. injection H as -> H.
    cbn [str_forall] in Ha, Hb.
    apply andb_true_iff in Ha as [_ Ha]. apply andb_true_iff in Hb as [_ Hb].
    f_equal. exact (IH _ Ha Hb H).
Qed.

Lemma lines_differ pre v post z rest' :
  str_forall not_dquote v = true ->
  str_forall not_dquote z = true ->
  v <> z ->
  pre +:+ line z +:+ rest' <> pre +:+ line v +:+ post.
Proof.
  intros Hv Hz Hne H%String.app_inj.
  rewrite !line_app in H. apply String.app_inj in H.
  injection H as H. apply Hne. symmetry.
  exact (split_at_dquote _ _ _ _ Hz Hv H).
Qed.

(** The substitution with a plain zone on a text whose first assignment is
    the line of [v]. *)
Lemma re_sub_any_line pre v post z :
  key_absent pre = true ->
  str_forall not_dquote v = true ->
  str_forall not_backslash z = true ->
  exists rest',
    re_sub (ad_assignment z) post = Ok rest' /\
    re_sub (ad_assignment z) (pre +:+ line v +:+ post)
      = Ok (pre +:+ line z +:+ rest').
Proof.
  intros Hpre Hv Hz. unfold re_sub. rewrite (ad_assignment_plain z Hz).
  eexists. split; [reflexivity|].
  rewrite (sub_scan_pre _ _ _ (key_absent_before_line _ v post Hpre)).
  rewrite (sub_scan_hit _ _ _ (line_matches v post Hv)).
  rewrite expand_literal. reflexivity.
Qed.

Lemma update_any_line (dir d pre v post z : string) (w : World) :
  fs w !! tfvars_of dir = Some (File d) ->
  universal_newlines d = pre +:+ line v +:+ post ->
  key_absent pre = true ->
  str_forall not_dquote v = true ->
  str_forall not_dquote z = true ->
  str_forall not_backslash z = true ->
  v <> z ->
  exists rest',
    re_sub (ad_assignment z) post = Ok rest' /\
    update_main_tf dir z w
    = (Ok tt,
       add_event
         (ELog INFO "Updated terraform.tfvars with availability domain: %s" [AStr z])
         (put_file (tfvars_of dir) (to_disk w (pre +:+ line z +:+ rest')) w)).
Proof.
  intros Hfile Hread Hpre Hv Hzq Hzb Hne.
  destruct (re_sub_any_line pre v post z Hpre Hv Hzb) as [rest' [Hrest Hsub]].
  exists rest'. split; [exact Hrest|].
  unfold update_main_tf. fold (tfvars_of dir).
  rewrite (bind_ok _ _ _ _ _ (path_exists_file _ _ _ Hfile)).
  rewrite (bind_ok _ _ _ _ _
             (rewrite_file_hit _ _ _ _ _ _ _ _ Hfile Hread Hsub
                (lines_differ _ _ _ _ _ Hv Hzq Hne))).
  reflexivity.
Qed.



Lemma re_search_eq s :
  re_search s =
  match re_match AD_RE s with
  | Some rest =>
      Some (group1 (substring 0 (String.length s - String.length rest) s))
  | None =>
      match s with
      | EmptyString => None
      | String _ t => re_search t
      end
  end.
Proof. destruct s; reflexivity. Qed.

(** The reader finds the value of the first assignment line. *)
Lemma re_search_line pre z rest :
  key_absent pre = true ->
  str_forall not_dquote z = true ->
  re_search (pre +:+ line z +:+ rest) = Some z.
Proof.
  intros Hpre Hz. induction pre as [|c pre IH].
  - rewrite str_app_nil_l, re_search_eq, (line_matches z rest Hz).
    replace (String.length (line z +:+ rest) - String.length rest)%nat
      with (String.length (line z)) by (rewrite str_length_app; lia).
    rewrite substring_app, group1_line. reflexivity.
  - pose proof (key_absent_before_line _ z rest Hpre) as Hno.
    cbn [key_absent] in Hpre. apply andb_true_iff in Hpre as [_ Hpre].
    cbn [no_match_before] in Hno.
    rewrite re_search_eq.
    destruct (re_match AD_RE (String c pre +:+ line z +:+ rest)); [discriminate|].
    rewrite str_app_cons. exact (IH Hpre).
Qed.

(** *** The scan, piece by piece *)

Lemma str_app_inv_tail a b x : a +:+ x = b +:+ x -> a = b.
Proof.
  revert b. induction a as [|c a IH]; intros [|d b] H.
  - reflexivity.
  - exfalso. apply (f_equal String.length) in H.
    rewrite str_app_nil_l, str_length_app in H. cbn [String.length] in H. lia.
  - exfalso. apply (f_equal String.length) in H.
    rewrite str_app_nil_l, str_length_app in H. cbn [String.length] in H. lia.
  - rewrite !str_app_cons in H. injection H as -> H. f_equal. exact (IH _ H).
Qed.

Lemma source_app a b : source (a ++ b)%list = source a +:+ source b.
Proof.
  induction a as [|[c|m] a IH]; cbn [app source].
  - reflexivity.
  - rewrite IH, str_app_cons. reflexivity.
  - rewrite IH, str_app_assoc. reflexivity.
Qed.

Lemma edited_app z a b : edited z (a ++ b)%list = edited z a +:+ edited z b.
Proof.
  induction a as [|[c|m] a IH]; cbn [app edited].
  - reflexivity.
  - rewrite IH, str_app_cons. reflexivity.
  - rewrite IH, str_app_assoc. reflexivity.
Qed.

(** The substitution replaces the matches and copies the rest. *)
Lemma sub_scan_pieces repl z ps :
  (forall m, repl m = line z) ->
  scanned ps = true ->
  sub_scan repl 0 (source ps) = edited z ps.
Proof.
  intros Hrepl. induction ps as [|[c|m] ps IH]; cbn [scanned source edited]; intros H.
  - reflexivity.
  - destruct (re_match AD_RE (String c (source ps))) eqn:E; [discriminate|].
    rewrite (sub_scan_miss _ _ _ E), (IH H). reflexivity.
  - destruct (re_match AD_RE (m +:+ source ps)) as [r|] eqn:E; [|discriminate].
    apply andb_true_iff in H as [Hr H]. apply String.eqb_eq in Hr. subst r.
    rewrite (sub_scan_hit _ _ _ E), (IH H), Hrepl. reflexivity.
Qed.

Lemma re_sub_pieces z ps :
  str_forall not_backslash z = true ->
  scanned ps = true ->
  re_sub (ad_assignment z) (source ps) = Ok (edited z ps).
Proof.
  intros Hz Hps. unfold re_sub. rewrite (ad_assignment_plain z Hz).
  rewrite (sub_scan_pieces _ z ps); [reflexivity | | exact Hps].
  intros m. apply expand_literal.
Qed.

(** A text in which one match is the line of another value is changed by
    the edit. *)
Lemma edited_differs z v before after :
  str_forall not_dquote z = true ->
  v <> z ->
  scanned (before ++ Matched (line v) :: after)%list = true ->
  edited z (before ++ Matched (line v) :: after)%list
  <> source (before ++ Matched (line v) :: after)%list.
Proof.
  intros Hz Hne.
  induction before as [|[c|m] before IH]; cbn [app scanned edited source]; intros H Heq.
  - destruct (re_match AD_RE (line v +:+ source after)) as [r|] eqn:E; [|discriminate].
    apply andb_true_iff in H as [Hr _]. apply String.eqb_eq in Hr. subst r.
    rewrite <- Heq, (line_matches z _ Hz) in E. injection E as E.
    rewrite E in Heq. apply str_app_inv_tail in Heq.
    apply Hne. rewrite <- (group1_line v), <- Heq. apply group1_line.
  - destruct (re_match AD_RE (String c _)); [discriminate|].
    injection Heq as Heq. exact (IH H Heq).
  - destruct (re_match AD_RE (m +:+ _)) as [r|] eqn:E; [|discriminate].
    apply andb_true_iff in H as [Hr H]. apply String.eqb_eq in Hr. subst r.
    rewrite <- Heq, (line_matches z _ Hz) in E. injection E as E.
    exact (IH H E).
Qed.

(** The edit of a regular terraform.tfvars in which the scan finds the line
    of [v], with a zone [z] other than [v]. *)
Lemma update_pieces (dir d v z : string) (before after : list piece) (w : World) :
  fs w !! tfvars_of dir = Some (File d) ->
  universal_newlines d = source (before ++ Matched (line v) :: after)%list ->
  scanned (before ++ Matched (line v) :: after)%list = true ->
  str_forall not_dquote z = true ->
  str_forall not_backslash z = true ->
  v <> z ->
  update_main_tf dir z w
  = (Ok tt,
     add_event
       (ELog INFO "Updated terraform.tfvars with availability domain: %s" [AStr z])
       (put_file (tfvars_of dir)
          (to_disk w (edited z before +:+ line z +:+ edited z after)) w)).
Proof.
  intros Hfile Hread Hscan Hzq Hzb Hne.
  unfold update_main_tf. fold (tfvars_of dir).
  rewrite (bind_ok _ _ _ _ _ (path_exists_file _ _ _ Hfile)).
  rewrite (bind_ok _ _ _ _ _
             (rewrite_file_hit _ _ _ _ _ _ _ _ Hfile Hread
                (re_sub_pieces z _ Hzb Hscan)
                (edited_differs z v before after Hzq Hne Hscan))).
  rewrite edited_app. reflexivity.
Qed.

Lemma re_star_suffix cls k s rest :
  (forall s' r, k s' = Some r -> exists m, s' = m +:+ r) ->
  re_star cls k s = Some rest ->
  exists m, s = m +:+ rest.
Proof.
  intros Hk. induction s as [|c s IH]; cbn [re_star].
  - apply Hk.
  - destruct (cls c); [|apply Hk].
    destruct (re_star cls k s) as [r|] eqn:E.
    + intros [= <-]. destruct (IH eq_refl) as [m ->].
      exists (String c m). reflexivity.
    + apply Hk.
Qed.

Lemma re_match_suffix r : forall s rest,
  re_match r s = Some rest -> exists m, s = m +:+ rest.
Proof.
  induction r as [|[c|cls] r IH]; intros s rest; cbn [re_match].
  - intros [= <-]. exists EmptyString. reflexivity.
  - destruct s as [|c' s]; [discriminate|].
    destruct (Ascii.eqb c c'); [|discriminate].
    intros [m ->]%IH. exists (String c' m). reflexivity.
  - apply re_star_suffix. exact IH.
Qed.

(** Every text is cut into pieces by the scan. *)
Lemma scan_pieces s : exists ps, source ps = s /\ scanned ps = true.
Proof.
  remember (String.length s) as n eqn:Hn.
  revert s Hn. induction n as [n IH] using lt_wf_ind. intros s Hn.
  destruct s as [|c t]; [exists []; split; reflexivity|].
  destruct (re_match AD_RE (String c t)) as [rest|] eqn:E.
  - pose proof (AD_RE_consumes _ _ E) as Hlen.
    destruct (re_match_suffix _ _ _ E) as [m Hm].
    destruct (IH (String.length rest)) with (s := rest) as [ps [Hs Hps]];
      [subst n; exact Hlen | reflexivity |].
    exists (Matched m :: ps). cbn [source scanned].
    rewrite Hs, <- Hm, E, String.eqb_refl, Hps. split; reflexivity.
  - destruct (IH (String.length t)) with (s := t) as [ps [Hs Hps]];
      [subst n; cbn [String.length]; lia | reflexivity |].
    exists (Plain c :: ps). cbn [source scanned].
    rewrite Hs, E, Hps. split; reflexivity.
Qed.

(** The scan cuts a text in one way only. *)
Lemma scan_pieces_unique ps : forall ps',
  scanned ps = true -> scanned ps' = true -> source ps = source ps' -> ps = ps'.
Proof.
  induction ps as [|[c|m] ps IH]; intros [|[c'|m'] ps'];
    cbn [scanned source]; intros H H' Heq.
  - reflexivity.
  - discriminate.
  - rewrite <- Heq in H'. vm_compute in H'. discriminate.
  - discriminate.
  - injection Heq as -> Heq.
    destruct (re_match AD_RE (String c' (source ps))); [discriminate|].
    rewrite <- Heq in H'.
    destruct (re_match AD_RE (String c' (source ps))); [discriminate|].
    f_equal. exact (IH _ H H' Heq).
  - rewrite <- Heq in H'.
    destruct (re_match AD_RE (String c (source ps))); discriminate.
  - rewrite Heq in H. vm_compute in H. discriminate.
  - rewrite Heq in H.
    destruct (re_match AD_RE (String c' (source ps'))); discriminate.
  - rewrite Heq in H.
    destruct (re_match AD_RE (m' +:+ source ps')) as [r|]; [|discriminate].
    apply andb_true_iff in H as [Hr H]. apply andb_true_iff in H' as [Hr' H'].
    apply String.eqb_eq in Hr, Hr'. subst r.
    rewrite Hr' in Heq. apply str_app_inv_tail in Heq. subst m'.
    f_equal. exact (IH _ H H' Hr').
Qed.

(** C5, as amended.  Let terraform.tfvars be a regular file whose text, read
    in text mode (CR LF and CR turned into LF), holds the line of AD-1 as one
    of the matches that the scan of the substitution finds: [before] and
    [after] are the pieces of the scan on its two sides.  Editing with the
    zone AD-2 stores the text in which that line reads AD-2, every other
    match of the pattern, whatever its value and also in a comment, is the
    assignment of AD-2 as well, and every character outside the matches is
    as it was, with every LF written as the line separator of the platform;
    the update is logged and no other path changes. *)
Theorem edit_rewrites_every_match (dir d : string) (before after : list piece)
    (w : World)
    (Hfile : fs w !! tfvars_of dir = Some (File d))
    (Hread : universal_newlines d
             = source (before ++ Matched (line "AD-1") :: after)%list)
    (Hscan : scanned (before ++ Matched (line "AD-1") :: after)%list = true) :
  update_main_tf dir "AD-2" w
  = (Ok tt,
     add_event
       (ELog INFO "Updated terraform.tfvars with availability domain: %s"
             [AStr "AD-2"])
       (put_file (tfvars_of dir)
          (to_disk w (edited "AD-2" before +:+ line "AD-2" +:+ edited "AD-2" after))
          w)).
Proof.
  apply (update_pieces dir d "AD-1" "AD-2" before after w Hfile Hread Hscan);
    [reflexivity | reflexivity | discriminate].
Qed.

Lemma edit_rewrites_every_match_witness :
  update_main_tf "/cfg" "AD-2" (world0 files_two_lines no_process)
  = (Ok tt,
     add_event
       (ELog INFO "Updated terraform.tfvars with availability domain: %s"
             [AStr "AD-2"])
       (put_file (tfvars_of "/cfg")
          (to_disk (world0 files_two_lines no_process)
             (edited "AD-2" two_lines_before +:+ line "AD-2" +:+ edited "AD-2" []))
          (world0 files_two_lines no_process))).
Proof.
  apply (edit_rewrites_every_match "/cfg" two_lines two_lines_before []
           (world0 files_two_lines no_process)).
  - vm_compute. reflexivity.
  - vm_compute. reflexivity.
  - vm_compute. reflexivity.
Defined.

(** The line endings of the file do not stay: a file with CR LF is stored
    with LF on POSIX, in the text before the line as well. *)
Lemma edit_translates_line_endings :
  let w' := snd (update_main_tf "/cfg" "AD-2" (world0 files_crlf no_process)) in
  fs w' !! "/cfg/terraform.tfvars"
    = Some (File ("x = 1" +:+ String newline (line "AD-2"))).
Proof. vm_compute. reflexivity. Qed.

(** A value without its closing quote before the line takes the line into
    its match: the text then holds the assignment of AD-2 once, followed by
    what is left of the line. *)
Lemma edit_can_swallow_the_line :
  let w' := snd (update_main_tf "/cfg" "AD-2" (world0 files_open_quote no_process)) in
  fs w' !! "/cfg/terraform.tfvars"
    = Some (File (line "AD-2" +:+ "AD-1" +:+ String dquote EmptyString)).
Proof. vm_compute. reflexivity. Qed.

(** *** Line endings *)

(** A text read in text mode holds no CR. *)
Lemma universal_newlines_no_cr s :
  str_forall not_cr (universal_newlines s) = true.
Proof.
  remember (String.length s) as n eqn:Hn.
  revert s Hn. induction n as [n IH] using lt_wf_ind. intros s Hn.
  destruct s as [|c t]; [reflexivity|].
  cbn [universal_newlines].
  destruct (Ascii.eqb c carriage_return) eqn:Ec.
  - cbn [str_forall]. change (not_cr newline) with true. cbn [andb].
    destruct t as [|d t']; [reflexivity|].
    destruct (Ascii.eqb d newline).
    + apply (IH (String.length t')); [subst n; cbn [String.length]; lia | reflexivity].
    + apply (IH (String.length (String d t')));
        [subst n; cbn [String.length]; lia | reflexivity].
  - cbn [str_forall]. unfold not_cr at 1. rewrite Ec. cbn [negb andb].
    apply (IH (String.length t)); [subst n; cbn [String.length]; lia | reflexivity].
Qed.

(** On a text without CR the translation of a read does nothing. *)
Lemma universal_newlines_id s :
  str_forall not_cr s = true -> universal_newlines s = s.
Proof.
  induction s as [|c t IH]; [reflexivity|].
  cbn [str_forall]. intros [Hc Ht]%andb_true_iff.
  unfold not_cr in Hc. apply negb_true_iff in Hc.
  cbn [universal_newlines]. rewrite Hc, (IH Ht). reflexivity.
Qed.

(** A text without CR that was written in text mode reads back as it
    was, on both platforms. *)
Lemma write_then_read pf s :
  str_forall not_cr s = true ->
  universal_newlines (translate_newlines (linesep pf) s) = s.
Proof.
  destruct pf; cbn [linesep].
  all: induction s as [|c t IH]; [reflexivity|].
  all: cbn [str_forall]; intros [Hc Ht]%andb_true_iff.
  all: unfold not_cr in Hc; apply negb_true_iff in Hc.
  all: cbn [translate_newlines].
  all: destruct (Ascii.eqb c newline) eqn:En.
  - apply Ascii.eqb_eq in En. subst c.
    rewrite !str_app_cons, str_app_nil_l.
    cbn [universal_newlines]. rewrite Hc, (IH Ht). reflexivity.
  - cbn [universal_newlines]. rewrite Hc, (IH Ht). reflexivity.
  - apply Ascii.eqb_eq in En. subst c.
    rewrite !str_app_cons, str_app_nil_l.
    cbn [universal_newlines].
    change (Ascii.eqb carriage_return carriage_return) with true.
    change (Ascii.eqb newline newline) with true.
    cbv iota. rewrite (IH Ht). reflexivity.
  - cbn [universal_newlines]. rewrite Hc, (IH Ht). reflexivity.
Qed.

(** The substitution brings in no character that neither the text nor the
    replacement has. *)
Lemma sub_scan_forall f repl s : forall k,
  (forall m, str_forall f (repl m) = true) ->
  str_forall f s = true ->
  str_forall f (sub_scan repl k s) = true.
Proof.
  induction s as [|c t IH]; intros k Hrepl Hs; [reflexivity|].
  cbn [str_forall] in Hs. apply andb_true_iff in Hs as [Hc Ht].
  cbn [sub_scan]. destruct k as [|k]; [|exact (IH k Hrepl Ht)].
  destruct (re_match AD_RE (String c t)) as [rest|].
  - cbv zeta. rewrite str_forall_app, Hrepl. exact (IH _ Hrepl Ht).
  - cbn [str_forall]. rewrite Hc. exact (IH 0%nat Hrepl Ht).
Qed.

Lemma line_forall f z :
  str_forall f "availability_domain = " = true ->
  f dquote = true ->
  str_forall f z = true ->
  str_forall f (line z) = true.
Proof.
  intros Hk Hq Hz. unfold line, ad_assignment, quoted.
  rewrite str_forall_app, Hk. cbn [andb str_forall].
  rewrite Hq, str_forall_app, Hz. cbn [str_forall andb]. rewrite Hq. reflexivity.
Qed.

(** Round trip: what the editor writes is what the start-up code
    reads.  After the edit of such a file with a zone [z] that has no CR
    either, the check of terraform.tfvars answers whether [z] is non-blank
    and changes nothing, and without zones on the command line the run gets
    the one zone [z].  Both the edit and the check read and write in text
    mode. *)
Theorem edit_then_read_back (dir d pre v post z : string) (w : World)
    (Hfile : fs w !! tfvars_of dir = Some (File d))
    (Hread : universal_newlines d = pre +:+ line v +:+ post)
    (Hpre : key_absent pre = true)
    (Hv : str_forall not_dquote v = true)
    (Hzq : str_forall not_dquote z = true)
    (Hzb : str_forall not_backslash z = true)
    (Hzc : str_forall not_cr z = true)
    (Hne : v <> z) :
  exists w',
    update_main_tf dir z w = (Ok tt, w') /\
    check_availability_domain_in_tfvars dir w' = (Ok (has_non_space z), w') /\
    (forall a : Args,
       arg_config_dir a = dir ->
       arg_availability_domains a = None ->
       has_non_space z = true ->
       fst (resolve_domains a w') = Ok (inr [z])).
Proof.
  destruct (update_any_line dir d pre v post z w Hfile Hread Hpre Hv Hzq Hzb Hne)
    as [rest' [Hrest Hupd]].
  eexists. split; [exact Hupd|].
  set (w' := add_event _ _).
  assert (fs w' !! tfvars_of dir
          = Some (File (to_disk w (pre +:+ line z +:+ rest')))) as Hnew.
  { unfold w'. cbn [fs add_event put_file put_node]. apply lookup_insert_eq. }
  assert (universal_newlines (to_disk w (pre +:+ line z +:+ rest'))
          = pre +:+ line z +:+ rest') as Hback.
  { pose proof (universal_newlines_no_cr d) as Hd. rewrite Hread in Hd.
    rewrite !str_forall_app in Hd.
    apply andb_true_iff in Hd as [Hp Hd]. apply andb_true_iff in Hd as [_ Hpost].
    apply write_then_read. rewrite !str_forall_app, Hp.
    rewrite (line_forall not_cr z eq_refl eq_refl Hzc). cbn [andb].
    unfold re_sub in Hrest. rewrite (ad_assignment_plain z Hzb) in Hrest.
    injection Hrest as <-. apply sub_scan_forall; [|exact Hpost].
    intros m. rewrite expand_literal.
    exact (line_forall not_cr z eq_refl eq_refl Hzc). }
  assert (check_availability_domain_in_tfvars dir w' = (Ok (has_non_space z), w'))
    as Hcheck.
  { unfold check_availability_domain_in_tfvars. fold (tfvars_of dir).
    rewrite (bind_ok _ _ _ _ _ (path_exists_file _ _ _ Hnew)). cbn [negb].
    rewrite (bind_ok _ _ _ _ _ (read_text_file _ _ _ Hnew)), Hback.
    rewrite (re_search_line _ _ _ Hpre Hzq). reflexivity. }
  split; [exact Hcheck|].
  intros a Hdir Hnone Hz. unfold resolve_domains. rewrite Hdir, Hnone.
  rewrite (bind_ok _ _ _ _ _ Hcheck), Hz. cbn [negb].
  rewrite (bind_ok _ _ _ _ _ (log_eq _ _ _ _)).
  fold (tfvars_of dir).
  rewrite (bind_ok _ _ _ _ _ (read_text_file _ (add_event _ w') _ Hnew)), Hback.
  rewrite (re_search_line _ _ _ Hpre Hzq).
  rewrite (bind_ok _ _ _ _ _ (log_eq _ _ _ _)). reflexivity.
Qed.

Lemma edit_then_read_back_witness :
  exists w',
    update_main_tf "/cfg" "AD-3" (world0 files_crlf_commented no_process) = (Ok tt, w') /\
    check_availability_domain_in_tfvars "/cfg" w' = (Ok (has_non_space "AD-3"), w') /\
    (forall a : Args,
       arg_config_dir a = "/cfg" ->
       arg_availability_domains a = None ->
       has_non_space "AD-3" = true ->
       fst (resolve_domains a w') = Ok (inr ["AD-3"])).
Proof.
  apply (edit_then_read_back "/cfg" crlf_commented
           ("x = 1" +:+ String newline EmptyString)
           "AD-1" (String newline "y = 2") "AD-3").
  - vm_compute. reflexivity.
  - vm_compute. reflexivity.
  - vm_compute. reflexivity.
  - vm_compute. reflexivity.
  - vm_compute. reflexivity.
  - vm_compute. reflexivity.
  - vm_compute. reflexivity.
  - discriminate.
Defined.

End EditorGeneral.

(** ** Other ends of an attempt *)

Section AttemptEnds.

Lemma handlers_unexpected p e w :
  e <> TimeoutExpired ->
  handlers p e w = (Ok (CReturn false), error_handled p w).
Proof.
  intros He.
  assert (handlers p e =
          (log_exception "Unexpected error running terraform %s:" [AStr (operation p)] >>
           when (negb (plan_only p) && negb (no_cleanup p))
                (log INFO "Cleaning up resources due to unexpected error..." [] >>
                 cleanup_resources (config_dir p) (auto_approve p)) >>
           ret (CReturn false))) as ->.
  { destruct e; try reflexivity. congruence. }
  rewrite (bind_ok _ _ _ tt (add_event (ELogException _ _) w)) by reflexivity.
  unfold error_handled, cleans_up.
  destruct (negb (plan_only p) && negb (no_cleanup p)); cbn [when].
  - rewrite (bind_ok _ _ _ tt
               (cleaned (config_dir p) (auto_approve p)
                  (add_event (ELog INFO "Cleaning up resources due to unexpected error..." [])
                     (add_event (ELogException "Unexpected error running terraform %s:"
                                   [AStr (operation p)]) w)))).
    + reflexivity.
    + rewrite (bind_ok _ _ _ _ _ (log_eq _ _ _ _)). apply cleanup_eq.
  - reflexivity.
Qed.

Lemma attempts_exceeded_eq p w :
  attempts_exceeded p w = (Ok false, exhausted p w).
Proof.
  unfold attempts_exceeded, exhausted, cleans_up.
  rewrite (bind_ok _ _ _ _ _ (log_eq _ _ _ _)).
  destruct (negb (plan_only p) && negb (no_cleanup p)); cbn [when].
  - rewrite (bind_ok _ _ _ tt
               (cleaned (config_dir p) (auto_approve p)
                  (add_event (ELog INFO "Cleaning up resources..." [])
                     (add_event (ELog ERROR "Maximum attempts (%d) exceeded."
                                   [AInt (max_attempts p)]) w)))).
    + reflexivity.
    + rewrite (bind_ok _ _ _ _ _ (log_eq _ _ _ _)). apply cleanup_eq.
  - reflexivity.
Qed.

Lemma try_body_success p N w1 r :
  oracle w1 (calls w1) = Completed r ->
  returncode r = 0 ->
  try_body p N w1 = (Ok (CReturn true), success_reported p r w1).
Proof.
  intros Hrun Hrc. unfold try_body.
  rewrite (bind_ok _ _ w1 r (started (cmd p) (config_dir p) (timeout p) w1))
    by (unfold subprocess_run; rewrite Hrun; reflexivity).
  rewrite Hrc. cbn [Z.eqb].
  rewrite (bind_ok _ _ _ _ _ (log_eq _ _ _ _)).
  unfold success_reported.
  destruct (isEnabledFor (logger p) DEBUG); cbn [when].
  - rewrite (bind_ok _ _ _ _ _ (log_eq _ _ _ _)). reflexivity.
  - reflexivity.
Qed.

(** An invocation that exits with code 0 ends the run with [True] at once,
    whatever budget of attempts is left: after it only the success is
    logged; no destroy is started, nothing sleeps, no file changes. *)
Theorem success_returns_true (p : Params) (N : Z) (w w1 : World) (z : string)
    (r : CompletedProcess)
    (HN : N <= max_attempts p)
    (Hpre : prelude p N w = (Ok z, w1))
    (Hrun : oracle w1 (calls w1) = Completed r)
    (Hrc : returncode r = 0) :
  let w2 := success_reported p r w1 in
  loop p N w = (Ok true, w2) /\
  trace w2 = (trace w1 ++
              [ERun (cmd p) (config_dir p) (timeout p) (Completed r);
               ELog INFO "Terraform %s succeeded!" [AStr (operation p)]] ++
              (if isEnabledFor (logger p) DEBUG
               then [ELog DEBUG (with_text "Output:") [AStr (stdout r)]]
               else []))%list /\
  calls w2 = S (calls w1) /\
  fs w2 = fs w1.
Proof.
  intros w2.
  assert (iteration p N w = (Ok (CReturn true), w2)) as Hit.
  { rewrite (iteration_after_prelude _ _ _ _ _ Hpre). unfold attempt.
    rewrite (bind_ok _ _ w1 (CReturn true) w2); [reflexivity|].
    apply try_ok. exact (try_body_success _ _ _ _ Hrun Hrc). }
  split; [exact (loop_return _ _ _ _ _ HN Hit)|].
  unfold w2, success_reported.
  destruct (isEnabledFor (logger p) DEBUG);
    cbn [trace calls fs add_event started]; rewrite ?Hrun, <- ?List.app_assoc;
    repeat split; reflexivity.
Qed.

Lemma success_returns_true_witness :
  let r := {| returncode := 0; stdout := "Apply complete!"; stderr := "" |} in
  let w1 := snd (prelude params0 1 w_success) in
  let w2 := success_reported params0 r w1 in
  loop params0 1 w_success = (Ok true, w2) /\
  trace w2 = (trace w1 ++
              [ERun (cmd params0) (config_dir params0) (timeout params0) (Completed r);
               ELog INFO "Terraform %s succeeded!" [AStr (operation params0)]] ++
              (if isEnabledFor (logger params0) DEBUG
               then [ELog DEBUG (with_text "Output:") [AStr (stdout r)]]
               else []))%list /\
  calls w2 = S (calls w1) /\
  fs w2 = fs w1.
Proof.
  apply (success_returns_true params0 1 w_success
           (snd (prelude params0 1 w_success)) "AD-1").
  - vm_compute. discriminate.
  - vm_compute. reflexivity.
  - vm_compute. reflexivity.
  - reflexivity.
Defined.

(** An exception of the invocation other than the expiry of the time limit
    (the program is not installed, say) ends the run with [False]: it is
    logged, and a cleanup runs exactly when the run is neither plan-only nor
    without cleanup. *)
Theorem unexpected_error_returns_false (p : Params) (N : Z) (w w1 : World)
    (z : string) (e : exn)
    (HN : N <= max_attempts p)
    (Hpre : prelude p N w = (Ok z, w1))
    (Hrun : oracle w1 (calls w1) = Raises e)
    (He : e <> TimeoutExpired) :
  let w2 := started (cmd p) (config_dir p) (timeout p) w1 in
  loop p N w = (Ok false, error_handled p w2) /\
  trace (error_handled p w2) =
    (trace w1 ++
     [ERun (cmd p) (config_dir p) (timeout p) (Raises e);
      ELogException "Unexpected error running terraform %s:" [AStr (operation p)]] ++
     (if negb (plan_only p) && negb (no_cleanup p)
      then [ELog INFO "Cleaning up resources due to unexpected error..." [];
            ELog INFO "Running terraform destroy to clean up all resources..." [];
            ERun (destroy_cmd (auto_approve p)) (config_dir p) 1800
                 (oracle w1 (S (calls w1)))] ++
           cleanup_logs (oracle w1 (S (calls w1)))
      else []))%list.
Proof.
  intros w2.
  assert (iteration p N w = (Ok (CReturn false), error_handled p w2)) as Hit.
  { rewrite (iteration_after_prelude _ _ _ _ _ Hpre). unfold attempt.
    rewrite (bind_ok _ _ w1 (CReturn false) (error_handled p w2)); [reflexivity|].
    rewrite (try_raise _ _ w1 e w2).
    - exact (handlers_unexpected _ _ _ He).
    - unfold try_body. apply bind_raise.
      unfold subprocess_run. rewrite Hrun. reflexivity. }
  split; [exact (loop_return _ _ _ _ _ HN Hit)|].
  unfold error_handled, cleans_up.
  destruct (negb (plan_only p) && negb (no_cleanup p)).
  - rewrite cleaned_trace. unfold w2.
    cbn [trace calls oracle add_event started]. rewrite Hrun.
    rewrite <- !List.app_assoc. reflexivity.
  - unfold w2. cbn [trace add_event started]. rewrite Hrun.
    rewrite <- !List.app_assoc. reflexivity.
Qed.

Lemma unexpected_error_returns_false_witness :
  let w1 := snd (prelude params0 1 w_broken) in
  let w2 := started (cmd params0) (config_dir params0) (timeout params0) w1 in
  loop params0 1 w_broken = (Ok false, error_handled params0 w2) /\
  trace (error_handled params0 w2) =
    (trace w1 ++
     [ERun (cmd params0) (config_dir params0) (timeout params0) (Raises OSError);
      ELogException "Unexpected error running terraform %s:"
        [AStr (operation params0)]] ++
     (if negb (plan_only params0) && negb (no_cleanup params0)
      then [ELog INFO "Cleaning up resources due to unexpected error..." [];
            ELog INFO "Running terraform destroy to clean up all resources..." [];
            ERun (destroy_cmd (auto_approve params0)) (config_dir params0) 1800
                 (oracle w1 (S (calls w1)))] ++
           cleanup_logs (oracle w1 (S (calls w1)))
      else []))%list.
Proof.
  apply (unexpected_error_returns_false params0 1 w_broken
           (snd (prelude params0 1 w_broken)) "AD-1" OSError).
  - vm_compute. discriminate.
  - vm_compute. reflexivity.
  - vm_compute. reflexivity.
  - discriminate.
Defined.

(** With no attempt left the loop body does not run: the driver logs that
    the attempts are exceeded, cleans up unless plan-only or without
    cleanup, and returns [False].  So a run with max_attempts below 1 starts
    no apply or plan at all and still starts a destroy when it cleans up. *)
Theorem no_attempt_left_cleans_up (p : Params) (N : Z) (w : World)
    (HN : max_attempts p < N) :
  loop p N w = (Ok false, exhausted p w) /\
  trace (exhausted p w) =
    (trace w ++
     [ELog ERROR "Maximum attempts (%d) exceeded." [AInt (max_attempts p)]] ++
     (if negb (plan_only p) && negb (no_cleanup p)
      then [ELog INFO "Cleaning up resources..." [];
            ELog INFO "Running terraform destroy to clean up all resources..." [];
            ERun (destroy_cmd (auto_approve p)) (config_dir p) 1800
                 (oracle w (calls w))] ++
           cleanup_logs (oracle w (calls w))
      else []))%list /\
  (N = 1 -> is_Some (fs w !! config_dir p) ->
   run_terraform_apply p w = (Ok false, exhausted p w)).
Proof.
  assert (loop p N w = (Ok false, exhausted p w)) as Hloop.
  { rewrite loop_step.
    destruct (Z_le_gt_dec N (max_attempts p)); [lia|]. apply attempts_exceeded_eq. }
  split; [exact Hloop|]. split.
  - unfold exhausted, cleans_up.
    destruct (negb (plan_only p) && negb (no_cleanup p)).
    + rewrite cleaned_trace. cbn [trace calls oracle add_event].
      rewrite <- !List.app_assoc. reflexivity.
    + reflexivity.
  - intros -> [n Hn]. unfold run_terraform_apply.
    rewrite (bind_ok _ _ _ _ _ (path_exists_file _ _ _ Hn)). exact Hloop.
Qed.

Lemma no_attempt_left_cleans_up_witness :
  loop params_no_attempts 1 w_success
    = (Ok false, exhausted params_no_attempts w_success) /\
  trace (exhausted params_no_attempts w_success) =
    (trace w_success ++
     [ELog ERROR "Maximum attempts (%d) exceeded."
           [AInt (max_attempts params_no_attempts)]] ++
     (if negb (plan_only params_no_attempts) && negb (no_cleanup params_no_attempts)
      then [ELog INFO "Cleaning up resources..." [];
            ELog INFO "Running terraform destroy to clean up all resources..." [];
            ERun (destroy_cmd (auto_approve params_no_attempts))
                 (config_dir params_no_attempts) 1800
                 (oracle w_success (calls w_success))] ++
           cleanup_logs (oracle w_success (calls w_success))
      else []))%list /\
  (1 = 1 -> is_Some (fs w_success !! config_dir params_no_attempts) ->
   run_terraform_apply params_no_attempts w_success
     = (Ok false, exhausted params_no_attempts w_success)).
Proof.
  apply (no_attempt_left_cleans_up params_no_attempts 1 w_success).
  vm_compute. reflexivity.
Defined.

End AttemptEnds.

(** ** Relations that every step of a run keeps *)

Section Frame.

Variable R : World -> World -> Prop.
Variable allowed : string -> Prop.
Hypothesis R_refl : forall w, R w w.
Hypothesis R_trans : forall w1 w2 w3, R w1 w2 -> R w2 w3 -> R w1 w3.
Hypothesis R_event : forall e w, R w (add_event e w).
Hypothesis R_started : forall c cwd t w, R w (started c cwd t w).
Hypothesis R_put : forall f n w, allowed f -> R w (put_node f n w).

Lemma steps_ret {A} (a : A) : steps R (ret a).
Proof. intros w. apply R_refl. Qed.

Lemma steps_raise {A} e : steps R (@raise A e).
Proof. intros w. apply R_refl. Qed.

Lemma steps_lift {A} (r : result A) : steps R (lift r).
Proof. intros w. apply R_refl. Qed.

Lemma steps_bind {A B} (m : M A) (k : A -> M B) :
  steps R m -> (forall a, steps R (k a)) -> steps R (bind m k).
Proof.
  intros Hm Hk w. rewrite bind_eq. specialize (Hm w).
  destruct (m w) as [[a|e] w']; cbn [snd] in *.
  - exact (R_trans _ _ _ Hm (Hk a w')).
  - exact Hm.
Qed.

Lemma steps_try {A} (m : M A) h :
  steps R m -> (forall e, steps R (h e)) -> steps R (try_except m h).
Proof.
  intros Hm Hh w. unfold try_except. specialize (Hm w).
  destruct (m w) as [[a|e] w']; cbn [snd] in *.
  - exact Hm.
  - exact (R_trans _ _ _ Hm (Hh e w')).
Qed.

Lemma steps_when b m : steps R m -> steps R (when b m).
Proof. intros Hm. destruct b; [exact Hm | apply steps_ret]. Qed.

Lemma steps_log l f a : steps R (log l f a).
Proof. intros w. apply R_event. Qed.

Lemma steps_log_exception f a : steps R (log_exception f a).
Proof. intros w. apply R_event. Qed.

Lemma steps_path_exists p : steps R (path_exists p).
Proof. intros w. apply R_refl. Qed.

Lemma steps_read_text p : steps R (read_text p).
Proof.
  intros w. unfold read_text.
  destruct (fs w !! p) as [[|c|[c|] [|] wr]|]; apply R_refl.
Qed.


Lemma steps_time_sleep d : steps R (time_sleep d).
Proof.
  intros w. unfold time_sleep.
  destruct (_ || _); [apply R_refl|].
  destruct (d <? 0); [apply R_refl | apply R_event].
Qed.

Lemma steps_subprocess_run c cwd t : steps R (subprocess_run c cwd t).
Proof.
  intros w. unfold subprocess_run.
  destruct (oracle w (calls w)); apply R_started.
Qed.

Create HintDb steps.
#[local] Hint Resolve steps_ret steps_raise steps_lift steps_log
  steps_log_exception steps_path_exists steps_read_text steps_time_sleep
  steps_subprocess_run : steps.

Ltac steps_tac :=
  repeat match goal with
    | |- steps _ (bind _ _) => apply steps_bind; [|intros ?]
    | |- steps _ (try_except _ _) => apply steps_try; [|intros ?]
    | |- steps _ (when _ _) => apply steps_when
    | |- steps _ (if ?b then _ else _) => destruct b eqn:?
    | |- steps _ (match ?x with _ => _ end) => destruct x
    | |- steps _ _ => solve [auto with steps]
    end.

Lemma steps_cleanup dir aa : steps R (cleanup_resources dir aa).
Proof. unfold cleanup_resources. steps_tac. Qed.



Lemma steps_after_report p N r : steps R (after_report p N r).
Proof. unfold after_report. pose proof steps_cleanup. steps_tac. Qed.





Variable p : Params.
Hypothesis Htfvars : allowed (tfvars_of (config_dir p)).
Hypothesis Hmain_tf : allowed (main_tf_of (config_dir p)).




End Frame.

(** ** The shape of an attempt *)

Section Shape.


Lemma destroy_is_destroy aa cwd t out : is_destroy (ERun (destroy_cmd aa) cwd t out) = true.
Proof. destruct aa; reflexivity. Qed.

Lemma destroy_only_not_success p e :
  event_ok (destroy_only p) e -> is_success e = false /\ is_apply e = false.
Proof.
  destruct e as [| |c cwd t out|]; try (split; reflexivity).
  cbn [event_ok]. intros [-> _]. unfold is_success, is_apply.
  rewrite destroy_is_destroy. destruct out; split; reflexivity.
Qed.

Lemma no_process_not_success e :
  event_ok no_process_started e -> is_success e = false /\ is_apply e = false.
Proof. destruct e; try (split; reflexivity). intros []. Qed.

Lemma keeps_after_report p N r : keeps (destroy_only p) (after_report p N r).
Proof.
  unfold after_report.
  destruct (plan_only p); [apply keeps_ret|].
  apply keeps_bind.
  - apply keeps_when. intros _. apply keeps_cleanup. split; reflexivity.
  - intros _. destruct (recoverable (stderr r)).
    + destruct (N <? max_attempts p).
      * apply keeps_bind; [apply keeps_log|]. intros _.
        apply keeps_bind; [apply keeps_time_sleep|]. intros _. apply keeps_ret.
      * apply keeps_bind; [apply keeps_log|]. intros _. apply keeps_ret.
    + apply keeps_bind; [apply keeps_log|]. intros _. apply keeps_ret.
Qed.

Lemma keeps_handlers_destroy p e : keeps (destroy_only p) (handlers p e).
Proof. apply keeps_handlers. intros _ _. split; reflexivity. Qed.

Lemma keeps_prelude p N : keeps no_process_started (prelude p N).
Proof.
  unfold prelude, use_zone.
  apply keeps_bind; [apply keeps_lift|]. intros z.
  apply keeps_bind; [|intros _; apply keeps_ret].
  apply keeps_bind; [apply keeps_log|]. intros _.
  apply keeps_bind; [apply keeps_update_main_tf|]. intros _. apply keeps_log.
Qed.

Lemma after_report_not_true p N r w c w' :
  after_report p N r w = (Ok c, w') -> c <> CReturn true.
Proof.
  unfold after_report. destruct (plan_only p).
  - intros [= <- _]. discriminate.
  - rewrite (bind_ok _ _ _ _ _ (when_cleanup _ _)).
    destruct (recoverable (stderr r)).
    + destruct (N <? max_attempts p).
      * rewrite (bind_ok _ _ _ _ _ (log_eq _ _ _ _)). rewrite bind_eq.
        destruct (time_sleep _ _) as [[[]|e] w2]; intros [= <- _]. discriminate.
      * rewrite (bind_ok _ _ _ _ _ (log_eq _ _ _ _)). intros [= <- _]. discriminate.
    + rewrite (bind_ok _ _ _ _ _ (log_eq _ _ _ _)). intros [= <- _]. discriminate.
Qed.

Lemma handlers_result p e w :
  exists c w', handlers p e w = (Ok c, w') /\ c <> CReturn true.
Proof.
  assert (e = TimeoutExpired \/ e <> TimeoutExpired) as [->|He]
    by (destruct e; (left; reflexivity) || (right; discriminate)).
  - eexists _, _. split; [reflexivity | discriminate].
  - rewrite (handlers_unexpected _ _ _ He). eexists _, _.
    split; [reflexivity | discriminate].
Qed.

(** What follows the start of the invocation, up to the end of the [try]
    statement: the handlers leave no exception, and only destroy can be
    started. *)
Lemma guarded_tail p (m : M Control) w :
  keeps (destroy_only p) m ->
  (forall c w', m w = (Ok c, w') -> c <> CReturn true) ->
  exists c w2,
    try_except m (handlers p) w = (Ok c, w2) /\
    c <> CReturn true /\
    grows (destroy_only p) w w2.
Proof.
  intros Hk Hc. unfold try_except. pose proof (Hk w) as Hg.
  destruct (m w) as [[c|e] w'] eqn:E; cbn [snd] in Hg.
  - exists c, w'. split; [reflexivity|]. split; [exact (Hc _ _ eq_refl) | exact Hg].
  - destruct (handlers_result p e w') as [c [w2 [Hh Hne]]].
    exists c, w2. split; [exact Hh|]. split; [exact Hne|].
    pose proof (keeps_handlers_destroy p e w') as Hg2. rewrite Hh in Hg2.
    exact (grows_trans _ _ _ _ Hg Hg2).
Qed.

Lemma attempt_shape p N w1 :
  let first := ERun (cmd p) (config_dir p) (timeout p) (oracle w1 (calls w1)) in
  exists c w2 tail,
    attempt p N w1 = (Ok c, w2) /\
    trace w2 = (trace w1 ++ first :: tail)%list /\
    Forall (event_ok (destroy_only p)) tail /\
    (if is_success first
     then c = CReturn true /\ Forall (fun e => is_log e = true) tail
     else c <> CReturn true).
Proof.
  intros first. unfold attempt.
  assert (forall (m : M Control) w0 logs,
            try_except (try_body p N) (handlers p) w1 = try_except m (handlers p) w0 ->
            trace w0 = (trace w1 ++ first :: logs)%list ->
            Forall (fun e => is_log e = true) logs ->
            keeps (destroy_only p) m ->
            (forall c w', m w0 = (Ok c, w') -> c <> CReturn true) ->
            exists c w2 tail,
              (let! c := try_except (try_body p N) (handlers p) in
               match c with CElse => ret (CReturn false) | _ => ret c end) w1
              = (Ok c, w2) /\
              trace w2 = (trace w1 ++ first :: tail)%list /\
              Forall (event_ok (destroy_only p)) tail /\
              c <> CReturn true) as Hfail.
  { intros m w0 logs Heq Htr Hlogs Hk Hc.
    destruct (guarded_tail p m w0 Hk Hc) as [c [w2 [Hres [Hne [evs [Hevs Hall]]]]]].
    exists (match c with CElse => CReturn false | _ => c end), w2, (logs ++ evs)%list.
    split; [|split; [|split]].
    - rewrite bind_eq, Heq, Hres. destruct c as [b| |]; reflexivity.
    - rewrite Hevs, Htr, <- List.app_assoc. reflexivity.
    - apply Forall_app. split; [|exact Hall].
      eapply Forall_impl; [exact Hlogs|]. intros [| | |] H; try discriminate. exact I.
    - destruct c as [b| |]; try discriminate. exact Hne. }
  assert (is_success first =
          match oracle w1 (calls w1) with
          | Completed r => returncode r =? 0
          | Raises _ => false
          end) as Hs.
  { unfold first, is_success. rewrite cmd_is_not_destroy.
    destruct (oracle w1 (calls w1)); reflexivity. }
  rewrite Hs. clear Hs.
  destruct (oracle w1 (calls w1)) as [r|e] eqn:Ho.
  - destruct (Z.eqb_spec (returncode r) 0) as [Hrc|Hrc].
    + rewrite (bind_ok _ _ w1 (CReturn true) (success_reported p r w1))
        by (apply try_ok; exact (try_body_success _ _ _ _ Ho Hrc)).
      exists (CReturn true), (success_reported p r w1),
        (ELog INFO "Terraform %s succeeded!" [AStr (operation p)]
         :: (if isEnabledFor (logger p) DEBUG
             then [ELog DEBUG (with_text "Output:") [AStr (stdout r)]] else [])).
      split; [reflexivity|].
      unfold success_reported, first.
      destruct (isEnabledFor (logger p) DEBUG);
        cbn [trace add_event started]; rewrite ?Ho, <- ?List.app_assoc;
        (split; [reflexivity|]); split;
        repeat constructor.
    + destruct (Hfail (after_report p N r) (failure_reported p r w1)
                  (ELog WARNING "Terraform %s failed (exit code: %d)"
                        [AStr (operation p); AInt (returncode r)]
                   :: (if isEnabledFor (logger p) DEBUG
                       then [ELog DEBUG (with_text "Error output:") [AStr (stderr r)]]
                       else [])))
        as [c [w2 [tail H]]].
      * unfold try_except. rewrite (try_body_failure _ _ _ _ Ho Hrc). reflexivity.
      * unfold failure_reported, first.
        destruct (isEnabledFor (logger p) DEBUG);
          cbn [trace add_event started]; rewrite ?Ho, <- ?List.app_assoc;
          reflexivity.
      * destruct (isEnabledFor (logger p) DEBUG); repeat constructor.
      * apply keeps_after_report.
      * intros c w'. apply after_report_not_true.
      * exists c, w2, tail. exact H.
  - destruct (Hfail (raise e) (started (cmd p) (config_dir p) (timeout p) w1) [])
      as [c [w2 [tail H]]].
    + unfold try_except, try_body. rewrite bind_eq. unfold subprocess_run.
      rewrite Ho. reflexivity.
    + unfold first. cbn [trace started]. rewrite Ho. reflexivity.
    + constructor.
    + apply keeps_raise.
    + intros c w'. discriminate.
    + exists c, w2, tail. exact H.
Qed.

Lemma iteration_shape p N w :
  exists pre,
    Forall (event_ok no_process_started) pre /\
    ((exists e w', iteration p N w = (Raise e, w') /\
                   trace w' = (trace w ++ pre)%list) \/
     (exists z w1, prelude p N w = (Ok z, w1) /\
                   trace w1 = (trace w ++ pre)%list /\
                   iteration p N w = attempt p N w1)).
Proof.
  destruct (keeps_prelude p N w) as [pre [Htr Hall]].
  exists pre. split; [exact Hall|].
  destruct (prelude p N w) as [[z|e] w1] eqn:E; cbn [snd] in Htr.
  - right. exists z, w1. split; [reflexivity|]. split; [exact Htr|].
    exact (iteration_after_prelude _ _ _ _ _ E).
  - left. exists e, w1. split; [|exact Htr].
    unfold iteration. exact (bind_raise _ _ _ _ _ E).
Qed.

(** Induction over the iterations of the loop. *)
Lemma loop_induction p (I : Z -> World -> result bool * World -> Prop) :
  (forall N w, max_attempts p < N -> I N w (attempts_exceeded p w)) ->
  (forall N w, N <= max_attempts p ->
     match iteration p N w with
     | (Ok CContinue, w') => forall res, I (N + 1) w' res -> I N w res
     | (Ok (CReturn b), w') => I N w (Ok b, w')
     | (Ok CElse, w') => I N w (Ok false, w')
     | (Raise e, w') => I N w (Raise e, w')
     end) ->
  forall N w, I N w (loop p N w).
Proof.
  intros Hend Hstep.
  assert (forall n N w, (Z.to_nat (max_attempts p + 1 - N) <= n)%nat ->
                        I N w (loop p N w)) as H.
  { induction n as [|n IH]; intros N w Hn; rewrite loop_step;
      destruct (Z_le_gt_dec N (max_attempts p)) as [Hle|Hgt];
      try (apply Hend; lia); [lia|].
    specialize (Hstep N w Hle).
    destruct (iteration p N w) as [[[b| |]|e] w']; try exact Hstep.
    apply Hstep. apply IH. lia. }
  intros N w. eapply H. reflexivity.
Qed.

End Shape.

(** ** What a whole run does *)

Section WholeRun.

Lemma count_applies_app a b :
  count_applies (a ++ b) = (count_applies a + count_applies b)%nat.
Proof. unfold count_applies. rewrite List.filter_app, List.length_app. reflexivity. Qed.

Lemma count_applies_none (P : Event -> Prop) evs :
  (forall e, P e -> is_apply e = false) -> Forall P evs -> count_applies evs = 0%nat.
Proof.
  intros HP Hall. induction Hall as [|e evs He _ IH]; [reflexivity|].
  unfold count_applies in *. cbn [List.filter]. rewrite (HP e He). exact IH.
Qed.

Lemma no_success_all (P : Event -> Prop) evs :
  (forall e, P e -> is_success e = false) ->
  Forall P evs -> Forall (fun e => is_success e = false) evs.
Proof. intros HP Hall. eapply Forall_impl; [exact Hall | exact HP]. Qed.

Lemma apply_is_apply p cwd t out : is_apply (ERun (cmd p) cwd t out) = true.
Proof. unfold is_apply. rewrite cmd_is_not_destroy. reflexivity. Qed.

Lemma exceeded_events p w :
  exists evs,
    trace (snd (attempts_exceeded p w)) = (trace w ++ evs)%list /\
    Forall (event_ok (destroy_only p)) evs /\
    fst (attempts_exceeded p w) = Ok false.
Proof.
  destruct (keeps_attempts_exceeded (destroy_only p) p
              ltac:(intros _ _; split; reflexivity) w) as [evs [Htr Hall]].
  exists evs. split; [exact Htr|]. split; [exact Hall|].
  rewrite attempts_exceeded_eq. reflexivity.
Qed.

(** The events of one iteration: no process before the invocation, then
    the invocation, then nothing but destroy. *)
Lemma iteration_events p N w :
  exists evs,
    trace (snd (iteration p N w)) = (trace w ++ evs)%list /\
    ((exists e, fst (iteration p N w) = Raise e /\
                Forall (event_ok no_process_started) evs) \/
     (exists c pre first tail,
        fst (iteration p N w) = Ok c /\
        evs = (pre ++ first :: tail)%list /\
        Forall (event_ok no_process_started) pre /\
        (exists out, first = ERun (cmd p) (config_dir p) (timeout p) out) /\
        Forall (event_ok (destroy_only p)) tail /\
        (if is_success first
         then c = CReturn true /\ Forall (fun e => is_log e = true) tail
         else c <> CReturn true))).
Proof.
  destruct (iteration_shape p N w) as [pre [Hpre [[e [w' [Hit Htr]]]|[z [w1 [_ [Htr Hit]]]]]]].
  - exists pre. rewrite Hit. split; [exact Htr|]. left. eauto.
  - destruct (attempt_shape p N w1) as [c [w2 [tail [Hat [Htr2 [Htail Hc]]]]]].
    exists (pre ++ ERun (cmd p) (config_dir p) (timeout p) (oracle w1 (calls w1)) :: tail)%list.
    rewrite Hit, Hat. cbn [fst snd]. split.
    + rewrite Htr2, Htr, <- List.app_assoc. reflexivity.
    + right.
      exists c, pre, (ERun (cmd p) (config_dir p) (timeout p) (oracle w1 (calls w1))), tail.
      repeat split; eauto.
Qed.

(** A run starts at most max_attempts apply or plan invocations (none when
    max_attempts is below 1). *)
Theorem applies_bounded_by_budget (p : Params) (w : World) :
  exists evs,
    trace (snd (run_terraform_apply p w)) = (trace w ++ evs)%list /\
    Z.of_nat (count_applies evs) <= Z.max 0 (max_attempts p).
Proof.
  assert (forall N w0,
            exists evs,
              trace (snd (loop p N w0)) = (trace w0 ++ evs)%list /\
              (count_applies evs <= Z.to_nat (max_attempts p + 1 - N))%nat) as Hloop.
  { apply (loop_induction p
             (fun N w0 res =>
                exists evs,
                  trace (snd res) = (trace w0 ++ evs)%list /\
                  (count_applies evs <= Z.to_nat (max_attempts p + 1 - N))%nat)).
    - intros N w0 _. destruct (exceeded_events p w0) as [evs [Htr [Hall _]]].
      exists evs. split; [exact Htr|].
      rewrite (count_applies_none _ _ (fun e H => proj2 (destroy_only_not_success p e H)) Hall).
      lia.
    - intros N w0 HN.
      destruct (iteration_events p N w0) as [evs [Htr Hcases]].
      assert (count_applies evs <= 1)%nat as Hone.
      { destruct Hcases as [[e [_ Hall]]|[c [pre [first [tail [_ [-> [Hpre [[out ->] [Htail _]]]]]]]]]].
        - rewrite (count_applies_none _ _ (fun e H => proj2 (no_process_not_success e H)) Hall).
          lia.
        - rewrite count_applies_app.
          rewrite (count_applies_none _ _ (fun e H => proj2 (no_process_not_success e H)) Hpre).
          change (?x :: tail) with ([x] ++ tail)%list. rewrite count_applies_app.
          rewrite (count_applies_none _ _ (fun e H => proj2 (destroy_only_not_success p e H)) Htail).
          unfold count_applies. cbn [List.filter]. rewrite apply_is_apply. cbn. lia. }
      destruct (iteration p N w0) as [[[b| |]|e] w'] eqn:E; cbn [snd] in Htr.
      + exists evs. split; [exact Htr | lia].
      + intros res [evs2 [Htr2 Hc2]]. exists (evs ++ evs2)%list. split.
        * rewrite Htr2, Htr, List.app_assoc. reflexivity.
        * rewrite count_applies_app. lia.
      + exists evs. split; [exact Htr | lia].
      + exists evs. split; [exact Htr | lia]. }
  unfold run_terraform_apply. rewrite bind_eq. unfold path_exists.
  destruct (bool_decide _); cbn [negb].
  - destruct (Hloop 1 w) as [evs [Htr Hc]]. exists evs. split; [exact Htr | lia].
  - exists [ELog ERROR "Terraform config directory does not exist: %s" [AStr (config_dir p)]].
    split; [reflexivity|]. cbn. lia.
Qed.

(** A run returns [True] only through an apply or plan invocation that
    exited with code 0; that invocation is the last process of the run, and
    after it there are only log lines: no destroy, no sleep.  A run that
    does not return [True] has no invocation that exited with code 0. *)
Theorem true_means_last_apply_succeeded (p : Params) (w : World) :
  exists evs,
    trace (snd (run_terraform_apply p w)) = (trace w ++ evs)%list /\
    (fst (run_terraform_apply p w) = Ok true ->
     exists before r after,
       evs = (before ++ ERun (cmd p) (config_dir p) (timeout p) (Completed r) :: after)%list /\
       returncode r = 0 /\
       Forall (fun e => is_success e = false) before /\
       Forall (fun e => is_log e = true) after) /\
    (fst (run_terraform_apply p w) <> Ok true ->
     Forall (fun e => is_success e = false) evs).
Proof.
  set (I := fun (N : Z) (w0 : World) (res : result bool * World) =>
    exists evs,
      trace (snd res) = (trace w0 ++ evs)%list /\
      (fst res = Ok true ->
       exists before r after,
         evs = (before ++ ERun (cmd p) (config_dir p) (timeout p) (Completed r) :: after)%list /\
         returncode r = 0 /\
         Forall (fun e => is_success e = false) before /\
         Forall (fun e => is_log e = true) after) /\
      (fst res <> Ok true -> Forall (fun e => is_success e = false) evs)).
  assert (forall N w0, I N w0 (loop p N w0)) as Hloop.
  { apply loop_induction.
    - intros N w0 _. destruct (exceeded_events p w0) as [evs [Htr [Hall Hres]]].
      exists evs. split; [exact Htr|]. split.
      + rewrite Hres. discriminate.
      + intros _. exact (no_success_all _ _ (fun e H => proj1 (destroy_only_not_success p e H)) Hall).
    - intros N w0 HN.
      destruct (iteration_events p N w0) as [evs [Htr Hcases]].
      assert (forall c, fst (iteration p N w0) = Ok c -> c <> CReturn true ->
                        Forall (fun e => is_success e = false) evs) as Hquiet.
      { intros c Hc Hne.
        destruct Hcases as [[e [He _]]|[c' [pre [first [tail [Hc' [-> [Hpre [_ [Htail Hs]]]]]]]]]].
        - congruence.
        - assert (c' = c) as -> by congruence.
          apply Forall_app. split.
          + exact (no_success_all _ _ (fun e H => proj1 (no_process_not_success e H)) Hpre).
          + constructor.
            * destruct (is_success first); [destruct Hs; contradiction | reflexivity].
            * exact (no_success_all _ _ (fun e H => proj1 (destroy_only_not_success p e H)) Htail). }
      destruct (iteration p N w0) as [[[b| |]|e] w'] eqn:E; cbn [fst snd] in *.
      + exists evs. split; [exact Htr|]. destruct b.
        * split; [intros _|intros H; contradiction].
          destruct Hcases as [[e [He _]]|[c' [pre [first [tail [Hc' [-> [Hpre [[out ->] [Htail Hs]]]]]]]]]];
            [discriminate|].
          injection Hc' as <-.
          destruct (is_success (ERun (cmd p) (config_dir p) (timeout p) out)) eqn:Hsucc;
            [|contradiction].
          destruct Hs as [_ Hlogs].
          unfold is_success in Hsucc. destruct out as [r|e]; [|discriminate].
          apply andb_true_iff in Hsucc as [_ Hrc]. apply Z.eqb_eq in Hrc.
          exists pre, r, tail. repeat split; try assumption.
          exact (no_success_all _ _ (fun e H => proj1 (no_process_not_success e H)) Hpre).
        * split; [discriminate|]. intros _.
          apply (Hquiet (CReturn false)); [reflexivity | discriminate].
      + intros res [evs2 [Htr2 [Htrue Hfalse]]].
        pose proof (Hquiet CContinue eq_refl ltac:(discriminate)) as Hq.
        exists (evs ++ evs2)%list. split; [|split].
        * rewrite Htr2, Htr, List.app_assoc. reflexivity.
        * intros Hres. destruct (Htrue Hres) as [before [r [after [-> [Hrc [Hb Ha]]]]]].
          exists (evs ++ before)%list, r, after. repeat split; try assumption.
          -- rewrite List.app_assoc. reflexivity.
          -- apply Forall_app. split; assumption.
        * intros Hres. apply Forall_app. split; [exact Hq | exact (Hfalse Hres)].
      + exists evs. split; [exact Htr|]. split; [discriminate|]. intros _.
        apply (Hquiet CElse); [reflexivity | discriminate].
      + exists evs. split; [exact Htr|]. split; [discriminate|]. intros _.
        destruct Hcases as [[e' [_ Hall]]|[c' [pre [first [tail [Hc' _]]]]]]; [|discriminate].
        exact (no_success_all _ _ (fun e H => proj1 (no_process_not_success e H)) Hall). }
  unfold run_terraform_apply. rewrite bind_eq. unfold path_exists.
  destruct (bool_decide _); cbn [negb].
  - exact (Hloop 1 w).
  - exists [ELog ERROR "Terraform config directory does not exist: %s" [AStr (config_dir p)]].
    split; [reflexivity|]. split; [discriminate|]. intros _. repeat constructor.
Qed.

(** Every child process of a run is the apply or plan command with the
    configured time limit, or the destroy command with the limit of 1800
    seconds; a destroy is started only when the run is neither plan-only nor
    without cleanup. *)
Theorem processes_of_a_run (p : Params) (w : World) :
  exists evs,
    trace (snd (run_terraform_apply p w)) = (trace w ++ evs)%list /\
    Forall (fun e =>
              match e with
              | ERun c _ t _ =>
                  (c = cmd p /\ t = timeout p) \/
                  (c = destroy_cmd (auto_approve p) /\ t = 1800 /\
                   plan_only p = false /\ no_cleanup p = false)
              | _ => True
              end) evs.
Proof.
  destruct (keeps_run
              (fun c t => (c = cmd p /\ t = timeout p) \/
                          (c = destroy_cmd (auto_approve p) /\ t = 1800 /\
                           plan_only p = false /\ no_cleanup p = false))
              p (or_introl (conj eq_refl eq_refl))
              ltac:(intros Hn Hp; right; repeat split; assumption) w)
    as [evs [Htr Hall]].
  exists evs. split; [exact Htr|].
  eapply Forall_impl; [exact Hall|].
  intros [| |c cwd t out|] He; try exact I. exact He.
Qed.












(** A zone whose replacement text is not a valid template of [re.sub] (a
    backslash before a letter that is no escape, say) makes the first
    attempt raise while terraform.tfvars is edited: the exception leaves the
    driver before any child process is started, and no file changes. *)
Theorem bad_escape_aborts_run (p : Params) (w : World) (z c : string)
    (rest : list string) (e : exn)
    (Hzones : availability_domains p = z :: rest)
    (Hmax : 1 <= max_attempts p)
    (Hdir : is_Some (fs w !! config_dir p))
    (Hfile : fs w !! tfvars_of (config_dir p) = Some (File c))
    (Hbad : parse_template None (ad_assignment z) = Raise e) :
  run_terraform_apply p w
  = (Raise e,
     add_event (ELog INFO "Attempt %d/%d: Using AD %s"
                  [AInt 1; AInt (max_attempts p); AStr z]) w).
Proof.
  destruct Hdir as [n Hn]. unfold run_terraform_apply.
  rewrite (bind_ok _ _ _ _ _ (path_exists_file _ _ _ Hn)). cbn [negb].
  rewrite loop_step. destruct (Z_le_gt_dec 1 (max_attempts p)); [|lia].
  set (w1 := add_event _ w).
  assert (iteration p 1 w = (Raise e, w1)) as ->; [|reflexivity].
  unfold iteration. apply bind_raise. unfold prelude.
  assert (select_zone (availability_domains p) 1 = Ok z) as Hsel.
  { rewrite Hzones. unfold select_zone, region_index.
    replace (Z.of_nat (List.length (z :: rest)) =? 0) with false
      by (symmetry; apply Z.eqb_neq; cbn [List.length]; lia).
    change (1 - 1) with 0. rewrite Z.mod_0_l by (cbn [List.length]; lia).
    unfold subscript. cbn [Z.ltb Z.compare orb].
    replace (Z.of_nat (List.length (z :: rest)) <=? 0) with false
      by (symmetry; apply Z.leb_gt; cbn [List.length]; lia).
    reflexivity. }
  rewrite (bind_ok _ _ w z w) by (unfold lift; rewrite Hsel; reflexivity).
  apply bind_raise. unfold use_zone.
  rewrite (bind_ok _ _ _ _ _ (log_eq _ _ _ _)). fold w1.
  apply bind_raise. unfold update_main_tf. fold (tfvars_of (config_dir p)).
  assert (fs w1 !! tfvars_of (config_dir p) = Some (File c)) as Hf1 by exact Hfile.
  rewrite (bind_ok _ _ _ _ _ (path_exists_file _ _ _ Hf1)).
  apply bind_raise. unfold rewrite_file.
  rewrite (bind_ok _ _ _ _ _ (read_text_file _ _ _ Hf1)).
  apply bind_raise. unfold lift, re_sub. rewrite Hbad. reflexivity.
Qed.

Lemma bad_escape_aborts_run_witness :
  run_terraform_apply params_backslash w_success
  = (Raise TemplateError,
     add_event (ELog INFO "Attempt %d/%d: Using AD %s"
                  [AInt 1; AInt (max_attempts params_backslash); AStr "tenancy\AD-1"])
               w_success).
Proof.
  apply (bad_escape_aborts_run params_backslash w_success "tenancy\AD-1"
           (line "AD-1") ["AD-2"] TemplateError).
  - reflexivity.
  - vm_compute. discriminate.
  - vm_compute. eauto.
  - vm_compute. reflexivity.
  - vm_compute. reflexivity.
Defined.

End WholeRun.

(** ** The zone list of [main] *)

Section Domains.





End Domains.

(** ** The recoverable markers *)

Section Markers.

Lemma lower_app a b : lower (a +:+ b) = lower a +:+ lower b.
Proof.
  induction a as [|c a IH]; [reflexivity|].
  rewrite str_app_cons. cbn [lower]. rewrite IH. reflexivity.
Qed.

Lemma lower_app_inv s x y :
  lower s = x +:+ y ->
  exists s1 s2, s = s1 +:+ s2 /\ lower s1 = x /\ lower s2 = y.
Proof.
  revert s. induction x as [|c x IH]; intros s H.
  - exists EmptyString, s. repeat split. exact H.
  - destruct s as [|d s]; [discriminate|].
    rewrite str_app_cons in H. cbn [lower] in H. injection H as Hc H.
    destruct (IH s H) as [s1 [s2 [-> [H1 H2]]]].
    exists (String d s1), s2. repeat split; [|exact H2].
    cbn [lower]. rewrite Hc, H1. reflexivity.
Qed.

Lemma str_in_lower marker s :
  str_in marker (lower s) = true <->
  exists a m b, s = a +:+ m +:+ b /\ lower m = marker.
Proof.
  rewrite str_in_iff. split.
  - intros [x [y H]].
    destruct (lower_app_inv _ _ _ H) as [a [t [-> [Ha Ht]]]].
    destruct (lower_app_inv _ _ _ Ht) as [m [b [-> [Hm Hb]]]].
    exists a, m, b. split; [reflexivity | exact Hm].
  - intros [a [m [b [-> Hm]]]]. exists (lower a), (lower b).
    rewrite !lower_app, Hm. reflexivity.
Qed.

(** An error text is recoverable exactly when it holds, somewhere, one of
    the two markers in any mix of upper and lower case. *)
Theorem recoverable_iff (s : string) :
  recoverable s = true <->
  exists a m b,
    s = a +:+ m +:+ b /\
    (lower m = "out of host capacity" \/ lower m = "internalerror").
Proof.
  unfold recoverable. rewrite orb_true_iff, !str_in_lower. split.
  - intros [[a [m [b [H Hm]]]]|[a [m [b [H Hm]]]]]; exists a, m, b; eauto.
  - intros [a [m [b [H [Hm|Hm]]]]]; [left | right]; exists a, m, b; eauto.
Qed.

End Markers.

(** ** The filter of the colour codes *)

Section Colours.

Variable r : regex.
Hypothesis r_consumes :
  forall s rest, re_match r s = Some rest ->
                 (String.length rest < String.length s)%nat.

Lemma scan_re_cons repl c t :
  sub_scan_re r repl 0 (String c t) =
  match re_match r (String c t) with
  | Some rest =>
      let n := (String.length (String c t) - String.length rest)%nat in
      repl (substring 0 n (String c t)) +:+ sub_scan_re r repl (n - 1) t
  | None => String c (sub_scan_re r repl 0 t)
  end.
Proof. reflexivity. Qed.

Lemma scan_re_skip repl a b :
  sub_scan_re r repl (String.length a) (a +:+ b) = sub_scan_re r repl 0 b.
Proof.
  induction a as [|c a IH]; [destruct b; reflexivity|].
  rewrite str_app_cons. cbn [String.length sub_scan_re]. exact IH.
Qed.

Lemma scan_re_hit repl m rest :
  re_match r (m +:+ rest) = Some rest ->
  sub_scan_re r repl 0 (m +:+ rest) = repl m +:+ sub_scan_re r repl 0 rest.
Proof.
  intros H. pose proof (r_consumes _ _ H) as Hlen.
  rewrite str_length_app in Hlen.
  destruct m as [|c m]; [simpl in Hlen; lia|].
  rewrite str_app_cons in *. rewrite scan_re_cons, H. cbv zeta.
  rewrite <- str_app_cons.
  replace (String.length (String c m +:+ rest) - String.length rest)%nat
    with (String.length (String c m)) by (rewrite str_length_app; lia).
  rewrite substring_app. simpl String.length.
  replace (S (String.length m) - 1)%nat with (String.length m) by lia.
  rewrite scan_re_skip. reflexivity.
Qed.

End Colours.

Section ColourCodes.

Lemma ANSI_consumes s rest :
  re_match ANSI_RE s = Some rest -> (String.length rest < String.length s)%nat.
Proof.
  unfold ANSI_RE. cbn [re_match]. destruct s as [|c s]; [discriminate|].
  destruct (Ascii.eqb esc c); [|discriminate].
  destruct s as [|d s]; [discriminate|].
  destruct (Ascii.eqb "[" d); [|discriminate].
  intros H.
  assert (String.length rest <= String.length s)%nat.
  { apply (re_match_len [RStar sgr_char; RLit "m"%char]). exact H. }
  simpl. lia.
Qed.

Lemma strip_plain_char c t :
  not_esc c = true -> strip_colors (String c t) = String c (strip_colors t).
Proof.
  intros Hc. unfold strip_colors. rewrite scan_re_cons.
  unfold ANSI_RE at 1. cbn [re_match].
  unfold not_esc in Hc. apply negb_true_iff in Hc.
  rewrite Ascii.eqb_sym, Hc. reflexivity.
Qed.

Lemma strip_plain_prefix t x :
  str_forall not_esc t = true -> strip_colors (t +:+ x) = t +:+ strip_colors x.
Proof.
  induction t as [|c t IH]; [reflexivity|].
  cbn [str_forall]. intros [Hc Ht]%andb_true_iff.
  rewrite !str_app_cons, (strip_plain_char _ _ Hc), (IH Ht). reflexivity.
Qed.

Lemma strip_plain s : str_forall not_esc s = true -> strip_colors s = s.
Proof.
  intros H. rewrite <- (str_app_nil_r s) at 1.
  rewrite (strip_plain_prefix _ _ H). apply str_app_nil_r.
Qed.

Lemma sgr_matches ps rest :
  str_forall sgr_char ps = true ->
  re_match ANSI_RE (sgr ps +:+ rest) = Some rest.
Proof.
  intros Hps. unfold sgr, ANSI_RE. rewrite !str_app_cons, str_app_assoc.
  rewrite !re_match_lit.
  change (re_match (RStar sgr_char :: ?k) ?s) with (re_star sgr_char (re_match k) s).
  rewrite str_app_cons, str_app_nil_l.
  apply re_star_run; [exact Hps | reflexivity |].
  rewrite re_match_lit. reflexivity.
Qed.

Lemma strip_sgr ps rest :
  str_forall sgr_char ps = true ->
  strip_colors (sgr ps +:+ rest) = strip_colors rest.
Proof.
  intros Hps. unfold strip_colors.
  rewrite (scan_re_hit ANSI_RE ANSI_consumes _ _ _ (sgr_matches ps rest Hps)).
  reflexivity.
Qed.

(** Colour codes around a text without the ESC character are removed and
    the text is kept: ESC [ parameters m, text, ESC [ parameters m becomes the
    text. *)
Theorem strip_colors_removes_codes (p1 p2 t : string)
    (Hp1 : str_forall sgr_char p1 = true)
    (Hp2 : str_forall sgr_char p2 = true)
    (Ht : str_forall not_esc t = true) :
  strip_colors (sgr p1 +:+ t +:+ sgr p2) = t.
Proof.
  rewrite (strip_sgr _ _ Hp1), (strip_plain_prefix _ _ Ht).
  rewrite <- (str_app_nil_r (sgr p2)), (strip_sgr _ _ Hp2).
  apply str_app_nil_r.
Qed.

Lemma strip_colors_removes_codes_witness :
  strip_colors (sgr "1;31" +:+ "Error: quota" +:+ sgr "0") = "Error: quota".
Proof.
  apply (strip_colors_removes_codes "1;31" "0" "Error: quota"); reflexivity.
Defined.

Lemma strip_arg_plain a : plain_arg a = true -> strip_arg a = a.
Proof.
  destruct a; try reflexivity. cbn [plain_arg strip_arg].
  intros H. rewrite (strip_plain _ H). reflexivity.
Qed.

(** The handler of the log file leaves a record as it is when neither its
    message nor its string arguments hold the ESC character. *)
Theorem filter_record_plain (rec : LogRecord)
    (Hmsg : plain_arg (rec_msg rec) = true)
    (Hargs : forallb plain_arg (rec_args rec) = true) :
  filter_record rec = rec.
Proof.
  destruct rec as [m args]. unfold filter_record. cbn [rec_msg rec_args] in *.
  rewrite (strip_arg_plain _ Hmsg). f_equal.
  assert (map strip_arg args = args) as Hmap.
  { induction args as [|a args IH]; [reflexivity|].
    cbn [forallb] in Hargs. apply andb_true_iff in Hargs as [Ha Hargs].
    cbn [map]. rewrite (strip_arg_plain _ Ha), (IH Hargs). reflexivity. }
  destruct args; [reflexivity | exact Hmap].
Qed.

Lemma filter_record_plain_witness :
  let rec := {| rec_msg := AStr "Attempt %d/%d: Using AD %s";
                rec_args := [AInt 1; AInt 50; AStr "AD-1"] |} in
  filter_record rec = rec.
Proof.
  apply (filter_record_plain
           {| rec_msg := AStr "Attempt %d/%d: Using AD %s";
              rec_args := [AInt 1; AInt 50; AStr "AD-1"] |}); reflexivity.
Defined.

End ColourCodes.
